(** * wiki2anki: word selection and definition pipeline

    A shallow embedding of [src/page.py] (the object-oriented pipeline) and of
    the module-level functions of [src/source.py] that it supersedes, together
    with the properties of the specification that concern them.

    Modelling conventions.
    - A Python [str] is a Rocq [string]; a character is one of the code points
      U+0000..U+00FF, and the character classes below are Python's own on
      that range ([str.isspace], [str.isalnum], [str.isupper], [str.lower],
      and [\s], [\w] of module [re] on [str] patterns).
    - The collaborators the code reaches through the network or the file
      system are parameters: the text of the page region, the rows of the
      frequency table, and the answer of [WiktionaryParser.fetch].
    - Methods that mutate [self], print, query the parser or may raise run in
      the monad [M]: a state carrying [self.entry], the log of parser
      requests and the printed lines, and an outcome that is a returned value
      or a raised exception. *)

From Stdlib Require Import String Ascii NArith ZArith Bool Lia.
From stdpp Require Import base list strings gmap.

Local Open Scope string_scope.
Local Open Scope list_scope.

(** ** Characters and strings *)

Definition code (c : ascii) : N := N_of_ascii c.

Definition between (lo hi : N) (c : ascii) : bool :=
  ((lo <=? code c) && (code c <=? hi))%N.

Definition is_code (n : N) (c : ascii) : bool := (code c =? n)%N.

(** [str.isspace], which is also [\s] for [str] patterns. *)
Definition isspace (c : ascii) : bool :=
  between 9 13 c || between 28 32 c || is_code 133 c || is_code 160 c.

(** [str.isalnum]. *)
Definition isalnum (c : ascii) : bool :=
  between 48 57 c || between 65 90 c || between 97 122 c
  || is_code 170 c || between 178 179 c || is_code 181 c
  || between 185 186 c || between 188 190 c
  || between 192 214 c || between 216 246 c || between 248 255 c.

(** [\w] for [str] patterns: alphanumeric characters and the underscore. *)
Definition isword (c : ascii) : bool := isalnum c || is_code 95 c.

(** [str.isupper] on one character. *)
Definition isupper (c : ascii) : bool :=
  between 65 90 c || between 192 214 c || between 216 222 c.

Definition lower_char (c : ascii) : ascii :=
  if isupper c then ascii_of_N (code c + 32) else c.

Fixpoint string_map (f : ascii -> ascii) (s : string) : string :=
  match s with
  | EmptyString => EmptyString
  | String c s' => String (f c) (string_map f s')
  end.

Fixpoint string_filter (p : ascii -> bool) (s : string) : string :=
  match s with
  | EmptyString => EmptyString
  | String c s' =>
      if p c then String c (string_filter p s') else string_filter p s'
  end.

Fixpoint string_exists (p : ascii -> bool) (s : string) : bool :=
  match s with
  | EmptyString => false
  | String c s' => p c || string_exists p s'
  end.

(** [str.lower]. *)
Definition lower (s : string) : string := string_map lower_char s.

(** [sep.join(items)]. *)
Fixpoint join (sep : string) (items : list string) : string :=
  match items with
  | [] => ""
  | [x] => x
  | x :: rest => x +:+ sep +:+ join sep rest
  end.

Definition newline : string := String (ascii_of_N 10) "".
Definition dquote : string := String (ascii_of_N 34) "".

(** ** Cleaner ([page.py], [Cleaner] and [BasicEnglishCleaner]) *)

(** [NON_ALNUM = re.compile(r"[^\w\s]")]: the characters the pattern
    matches. *)
Definition NON_ALNUM (c : ascii) : bool := negb (isword c || isspace c).

(** [WHITESPACE = re.compile(r"\s+")] matches maximal runs of the characters
    below. *)
Definition WHITESPACE (c : ascii) : bool := isspace c.

(** [NON_ALNUM.sub("", string)]. *)
Definition remove_punctuation (s : string) : string :=
  string_filter (fun c => negb (NON_ALNUM c)) s.

(** [WHITESPACE.split(string)]: the pieces of [string] between the maximal
    runs of whitespace; a run at the start or at the end leaves an empty
    piece there, and the empty string splits into one empty piece. *)
Fixpoint split_by_whitespace (s : string) : list string :=
  match s with
  | EmptyString => [""]
  | String c s' =>
      if WHITESPACE c then
        match s' with
        | String c' _ =>
            if WHITESPACE c' then split_by_whitespace s'
            else "" :: split_by_whitespace s'
        | EmptyString => "" :: split_by_whitespace s'
        end
      else
        match split_by_whitespace s' with
        | tok :: toks => String c tok :: toks
        | [] => [String c ""]
        end
  end.


(** ** The pandas operations of the pipeline

    A frame with the single column ["word"] is the list of its values in row
    order; a boolean mask is a list of the same length. *)

(** [df.drop_duplicates("word")]: a row is dropped when an earlier row holds
    the same string ([keep="first"]). *)
Fixpoint drop_duplicates_from (seen col : list string) : list string :=
  match col with
  | [] => []
  | x :: rest =>
      if bool_decide (x ∈ seen) then drop_duplicates_from seen rest
      else x :: drop_duplicates_from (x :: seen) rest
  end.

Definition drop_duplicates (col : list string) : list string :=
  drop_duplicates_from [] col.

(** [df.head(n)]: the first [n] rows; all rows but the last [-n] when [n] is
    negative. *)
Definition head {A : Type} (n : Z) (rows : list A) : list A :=
  if (0 <=? n)%Z then take (Z.to_nat n) rows
  else take (length rows - Z.to_nat (- n)) rows.

(** [series.isin(values)], one flag per row. *)
Definition isin (col values : list string) : list bool :=
  (fun x => bool_decide (x ∈ values)) <$> col.

(** [series.str.lower()]. *)
Definition str_lower (col : list string) : list string := lower <$> col.

(** [mask | other] and [~mask]. *)
Definition mask_or (mask other : list bool) : list bool :=
  zip_with orb mask other.

Definition mask_not (mask : list bool) : list bool := negb <$> mask.

(** [df[mask]]: the rows whose flag is set. *)
Fixpoint boolean_index {A : Type} (rows : list A) (mask : list bool) : list A :=
  match rows, mask with
  | x :: rows', b :: mask' =>
      if b then x :: boolean_index rows' mask' else boolean_index rows' mask'
  | _, _ => []
  end.

(** A row of the frequency table ([COLS = "rank word count"]). *)
Module Row.
Record t : Type := mk { rank : Z; word : string; count : Z }.
End Row.

Definition FrequencyTable : Type := list Row.t.

(** [table["word"]]. *)
Definition word_column (table : FrequencyTable) : list string :=
  Row.word <$> table.

(** The two mask statements that [Wiki2Anki.get_words] and [remove_common]
    share: [mask = df["word"].isin(common["word"])], then
    [mask |= df["word"].str.lower().isin(common["word"])]. *)
Definition common_mask (common : FrequencyTable) (df : list string) : list bool :=
  let mask := isin df (word_column common) in
  let mask := mask_or mask (isin (str_lower df) (word_column common)) in
  mask.

(** ** The definition source

    [WiktionaryParser.fetch(word, language)] answers with a list of entries;
    an entry has a list of definition groups under ["definitions"], and a
    group has a list of strings under ["text"]. *)

Record DefinitionGroup : Type := mkGroup { text : list string }.
Record Entry : Type := mkEntry { definitions : list DefinitionGroup }.

Definition Parser : Type := string -> string -> list Entry.

(** ** Effects *)

Inductive exn : Type := IndexError | TypeError.

Inductive outcome (A : Type) : Type :=
  | Returned (a : A)
  | Raised (e : exn).
Arguments Returned {A} a.
Arguments Raised {A} e.

Record state : Type := mkState {
  entry : option (list Entry);        (* [self.entry] of the definer *)
  requests : list (string * string);  (* calls of [fetch]: word, language *)
  stdout : list string                (* printed lines *)
}.

Definition M (A : Type) : Type := state -> outcome A * state.

#[global] Instance M_ret : MRet M := fun A a st => (Returned a, st).

#[global] Instance M_bind : MBind M := fun A B k m st =>
  match m st with
  | (Returned a, st') => k a st'
  | (Raised e, st') => (Raised e, st')
  end.

Definition raise {A : Type} (e : exn) : M A := fun st => (Raised e, st).

Definition print (line : string) : M unit := fun st =>
  (Returned tt,
   {| entry := entry st; requests := requests st;
      stdout := stdout st ++ [line] |}).

(** [l[i]] for a Python list: negative indices count from the end, and an
    index out of range raises [IndexError]. *)
Definition py_index {A : Type} (l : list A) (i : Z) : option A :=
  if (0 <=? i)%Z then l !! Z.to_nat i
  else if (- Z.of_nat (length l) <=? i)%Z then l !! Z.to_nat (Z.of_nat (length l) + i)
  else None.

Definition getitem {A : Type} (l : list A) (i : Z) : M A :=
  match py_index l i with
  | Some x => mret x
  | None => raise IndexError
  end.

(** The initial state of a run: [self.entry = None], nothing requested or
    printed. *)
Definition initial : state :=
  {| entry := None; requests := []; stdout := [] |}.

(** ** [page.py] *)

(** The abstract classes [Cleaner] and [Definer]: one method each. *)
Class Cleaner (C : Type) : Type := clean : C -> string -> list string.
Class Definer (D : Type) : Type := define : D -> string -> M (option string).

Module BasicEnglishCleaner.
Inductive t : Type := mk.

(** [Cleaner.remove_punctuation] and [Cleaner.split_by_whitespace] are the
    static methods [remove_punctuation] and [split_by_whitespace] above. *)
Definition clean (self : t) (s : string) : list string :=
  split_by_whitespace (remove_punctuation s).
End BasicEnglishCleaner.

#[global] Instance BasicEnglishCleaner_Cleaner : Cleaner BasicEnglishCleaner.t :=
  BasicEnglishCleaner.clean.

Module WiktionaryDefiner.
(** [language] is the attribute of the class, [parser] the
    [WiktionaryParser] made by [__attrs_post_init__]; [self.entry] lives in
    the state. *)
Record t : Type := mk { language : string; parser : Parser }.

Definition lookup_word (self : t) (word : string) : M unit := fun st =>
  (Returned tt,
   {| entry := Some (parser self word (language self));
      requests := requests st ++ [(word, language self)];
      stdout := stdout st |}).

Definition get_entry : M (list Entry) := fun st =>
  match entry st with
  | Some e => (Returned e, st)
  | None => (Raised TypeError, st)
  end.

Definition get_definition (self : t) (word : string)
    (entry_n definition_n : Z) : M (option string) :=
  _ ← lookup_word self word;
  fetched ← get_entry;
  match fetched with
  | [] =>
      _ ← print ("No " +:+ language self +:+ " definition found for: '"
                 +:+ word +:+ "'");
      mret None
  | _ =>
      e ← getitem fetched entry_n;
      let definitions := definitions e in
      match py_index definitions definition_n with
      | None =>
          _ ← print ("No definition found for: '" +:+ word +:+ "'");
          mret None
      | Some definition =>
          let text := text definition in
          definition ← getitem text 1;
          mret (Some definition)
      end
  end.

Definition define (self : t) (word : string) : M (option string) :=
  result ← get_definition self word 0 0;
  match result with
  | None =>
      let lower := lower word in
      if bool_decide (lower ≠ word) then get_definition self lower 0 0
      else mret result
  | Some _ => mret result
  end.
End WiktionaryDefiner.

#[global] Instance WiktionaryDefiner_Definer : Definer WiktionaryDefiner.t :=
  WiktionaryDefiner.define.

Module Page.
(** [body] is the text of the element with id [text_location] in the
    document fetched from [url]. *)
Record t : Type := mk { url : string; text_location : string; body : string }.

Definition get_text (self : t) : string := body self.

Definition get_words `{Cleaner C} (self : t) (cleaner : C) : list string :=
  clean cleaner (get_text self).
End Page.

Module Word.
Record t : Type := mk { word : string; definition : option string }.

(** [Word(word)]: the definition starts as [None]. *)
Definition new (w : string) : t := {| word := w; definition := None |}.

Definition get_definition `{Definer D} (self : t) (definer : D) : M t :=
  d ← define definer (word self);
  mret {| word := word self; definition := d |}.
End Word.

(** [str(x)] inside an f-string, for a value that is a string or [None]. *)
Definition format_value (x : option string) : string :=
  match x with
  | Some s => s
  | None => "None"
  end.

(** [Word.get_flashcard]; [Flashcard.get_flashcard] below is the same
    line. *)
Definition Word_get_flashcard (self : Word.t) : string :=
  Word.word self +:+ "; " +:+ dquote
  +:+ format_value (Word.definition self) +:+ dquote.

Module Flashcard.
Record t : Type := mk { word : string; definition : option string }.

Definition get_flashcard (self : t) : string :=
  word self +:+ "; " +:+ dquote +:+ format_value (definition self) +:+ dquote.

Definition from_word (w : Word.t) : t :=
  {| word := Word.word w; definition := Word.definition w |}.
End Flashcard.

Module Deck.
Definition t : Type := list Flashcard.t.

(** The cards left by the two comprehensions of [as_string]. *)
Definition kept (self : t) : list Flashcard.t :=
  let cards :=
    List.filter (fun card => bool_decide (Flashcard.definition card ≠ None)) self in
  List.filter (fun card => negb (String.eqb (Flashcard.word card) "")) cards.

Definition as_string (self : t) : string :=
  join newline (Flashcard.get_flashcard <$> kept self).
End Deck.

(** [for word in words: word.get_definition(definer=...)]: the words are
    resolved in list order, and the list holds the updated objects. *)
Fixpoint resolve_all `{Definer D} (definer : D) (words : list Word.t)
    : M (list Word.t) :=
  match words with
  | [] => mret []
  | w :: rest =>
      w' ← Word.get_definition w definer;
      rest' ← resolve_all definer rest;
      mret (w' :: rest')
  end.

Module Wiki2Anki.
Record t : Type := mk {
  url : string;
  top : Z;
  wiki : Page.t;
  definer : WiktionaryDefiner.t;
  cleaner : BasicEnglishCleaner.t;
  common : FrequencyTable
}.

(** [Wiki2Anki(url, top)], as [__attrs_post_init__] completes it: [body] is
    the text of the page region, [parser] the parser of the definer, and
    [csv] the rows of [../data/english_10000.csv]. *)
Definition new (url : string) (top : Z)
    (body : string) (parser : Parser) (csv : FrequencyTable) : t :=
  {| url := url;
     top := top;
     wiki := Page.mk url "bodyContent" body;
     definer := WiktionaryDefiner.mk "english" parser;
     cleaner := BasicEnglishCleaner.mk;
     common := head top csv |}.

(** The column [df[~mask]["word"]] of [get_words]. *)
Definition uncommon_words (self : t) : list string :=
  let words := Page.get_words (wiki self) (cleaner self) in
  let df := words in
  let df := drop_duplicates df in
  let df := head 100 df in
  let mask := common_mask (common self) df in
  boolean_index df (mask_not mask).

(** The local variable [words] of [get_words] when its loop ends. *)
Definition get_words_locals (self : t) : M (list Word.t) :=
  let words := Word.new <$> uncommon_words self in
  resolve_all (definer self) words.

(** [get_words] ends without a [return] statement: its value is [None]. *)
Definition get_words (self : t) : M (option (list Word.t)) :=
  _ ← get_words_locals self;
  mret None.

(** Iterating over [None] raises [TypeError]. *)
Definition get_cards (self : t) : M (list Flashcard.t) :=
  words ← get_words self;
  match words with
  | Some ws => mret (Flashcard.from_word <$> ws)
  | None => raise TypeError
  end.

Definition get_deck (self : t) : M string :=
  cards ← get_cards self;
  let deck : Deck.t := cards in
  mret (Deck.as_string deck).

(** [write(location)]: [open(location, "w")] creates the file, or empties
    it, before [get_deck] runs; the deck is written when [get_deck] returns,
    and the [with] statement closes the file either way. [files] maps the
    path of a file to its content, and the path is taken as writable. *)
Definition write (self : t) (location : string) (files : gmap string string)
    (st : state) : outcome unit * state * gmap string string :=
  let opened := <[location := ""]> files in
  match get_deck self st with
  | (Returned deck, st') => (Returned tt, st', <[location := deck]> opened)
  | (Raised e, st') => (Raised e, st', opened)
  end.
End Wiki2Anki.

(** ** [source.py]: the module-level functions the classes replace *)

Module Source.
Definition LANGUAGE : string := "english".

Section WithParser.
(** [PARSER = WiktionaryParser()]. *)
Variable PARSER : Parser.

Definition fetch (word : string) : M (list Entry) := fun st =>
  (Returned (PARSER word LANGUAGE),
   {| entry := entry st;
      requests := requests st ++ [(word, LANGUAGE)];
      stdout := stdout st |}).

Definition _query_wiktionary (word : string) : M (option string) :=
  fetched ← fetch word;
  match fetched with
  | [] =>
      _ ← print ("No " +:+ LANGUAGE +:+ " definition found for: '"
                 +:+ word +:+ "'");
      mret None
  | _ =>
      first_entry ← getitem fetched 0;
      let definitions := definitions first_entry in
      match py_index definitions 0 with
      | None =>
          _ ← print ("No definition found for: '" +:+ word +:+ "'");
          mret None
      | Some first_major_def =>
          let text := text first_major_def in
          first_minor_def ← getitem text 1;
          mret (Some first_minor_def)
      end
  end.

Definition query_wiktionary (word : string) : M (option string) :=
  result ← _query_wiktionary word;
  match result with
  | None =>
      let lower := lower word in
      if bool_decide (lower ≠ word) then _query_wiktionary lower
      else mret result
  | Some _ => mret result
  end.
End WithParser.

(** [remove_common(df, top)]; [csv] is the table the function reads. *)
Definition remove_common (csv : FrequencyTable) (df : list string) (top : Z)
    : list string :=
  let common := head top csv in
  let mask := common_mask common df in
  boolean_index df (mask_not mask).
End Source.

(** ** The scenario of the specification *)

Definition fox_text : string :=
  "The quick Fox jumps over the lazy dog. The Fox runs.".

Definition fox_table : FrequencyTable :=
  [ Row.mk 1 "the" 1000; Row.mk 2 "quick" 90; Row.mk 3 "over" 80;
    Row.mk 4 "lazy" 70; Row.mk 5 "dog" 60; Row.mk 6 "runs" 50 ].

(** A parser that knows [fox] only. *)
Definition fox_parser : Parser := fun word _ =>
  if String.eqb word "fox"
  then [ mkEntry [ mkGroup [ "fox (plural foxes)"; "a wild canine" ] ] ]
  else [].

Definition fox_run : Wiki2Anki.t :=
  Wiki2Anki.new "https://en.wikipedia.org/wiki/Fox" 5000
    fox_text fox_parser fox_table.

(** A parser whose only definition group holds the headword line and no
    definition text. *)
Definition headword_only_parser : Parser := fun _ _ =>
  [ mkEntry [ mkGroup [ "stub (plural stubs)" ] ] ].

Definition stub_definer : WiktionaryDefiner.t :=
  WiktionaryDefiner.mk "english" headword_only_parser.

Definition stub_run : Wiki2Anki.t :=
  Wiki2Anki.new "https://en.wikipedia.org/wiki/Stub" 5000
    "stub" headword_only_parser fox_table.

(** A table that lists [the] and the capitalised [Light]. *)
Definition light_table : FrequencyTable :=
  [ Row.mk 1 "the" 1000; Row.mk 2 "Light" 10 ].

(** A deck of one card whose definition runs over two lines. *)
Definition two_line_deck : Deck.t :=
  [ Flashcard.mk "a" (Some ("x" +:+ newline +:+ "y")) ].

(** A page of one hundred distinct words ([a], [aa], [aaa], ...) and a space
    after the last one. *)
Fixpoint repeat_a (n : nat) : string :=
  match n with
  | O => ""
  | S n' => String "a" (repeat_a n')
  end.

Definition hundred_words : string :=
  join " " (repeat_a <$> seq 1 100) +:+ " ".

Definition hundred_run : Wiki2Anki.t :=
  Wiki2Anki.new "https://en.wikipedia.org/wiki/A" 5000
    hundred_words fox_parser fox_table.

(** A page that starts with a line break. *)
Definition leading_space_run : Wiki2Anki.t :=
  Wiki2Anki.new "https://en.wikipedia.org/wiki/Fox" 5000
    (newline +:+ "Fox jumps") fox_parser fox_table.

(** ** The specification's wording, for comparison with the code *)

(** Tokenizer of the specification: drop every character that is not
    alphanumeric or whitespace, then split on runs of whitespace. *)
Definition tokenize_spec (s : string) : list string :=
  split_by_whitespace (string_filter (fun c => isalnum c || isspace c) s).

(** The first [limit] rows of the table, as words. *)
Definition first_rows (limit : Z) (table : FrequencyTable) : list string :=
  take (Z.to_nat limit) (word_column table).

(** A word is common when its exact string, or its lowercased form, is among
    the first [limit] rows. *)
Definition is_common_spec (table : FrequencyTable) (limit : Z) (w : string) : Prop :=
  w ∈ first_rows limit table ∨ lower w ∈ first_rows limit table.

(** Formatter of the specification: an entry with a definition and a
    non-empty word is rendered as the word, a semicolon and a space, and the
    definition in double quotes; other entries are dropped. *)
Definition render_entry (card : Flashcard.t) : option string :=
  match Flashcard.definition card with
  | None => None
  | Some d =>
      if String.eqb (Flashcard.word card) "" then None
      else Some (Flashcard.word card +:+ "; " +:+ dquote +:+ d +:+ dquote)
  end.

Definition format_spec (entries : list Flashcard.t) : string :=
  join newline (omap render_entry entries).

(** An entry that passes both filters of the formatter. *)
Definition clean_card (card : Flashcard.t) : Prop :=
  Flashcard.definition card ≠ None ∧ Flashcard.word card ≠ "".

#[global] Instance clean_card_dec card : Decision (clean_card card).
Proof. unfold clean_card. apply _. Defined.

Definition is_newline (c : ascii) : bool := is_code 10 c.

(** The number of lines of a text: none for the empty text, otherwise one
    more than its line breaks. *)
Fixpoint count_newlines (s : string) : nat :=
  match s with
  | EmptyString => 0
  | String c s' => (if is_newline c then 1 else 0) + count_newlines s'
  end.

Definition count_lines (s : string) : nat :=
  match s with
  | EmptyString => 0
  | _ => S (count_newlines s)
  end.

Fixpoint last_char (s : string) : option ascii :=
  match s with
  | EmptyString => None
  | String c EmptyString => Some c
  | String _ s' => last_char s'
  end.

Definition first_char (s : string) : option ascii :=
  match s with
  | EmptyString => None
  | String c _ => Some c
  end.

(** No line break inside the word or the definition of the card. *)
Definition single_line (card : Flashcard.t) : Prop :=
  string_exists is_newline (Flashcard.word card) = false
  ∧ string_exists is_newline (format_value (Flashcard.definition card)) = false.

(** [weave toks seps]: the tokens with the separators between them. *)
Fixpoint weave (toks seps : list string) : string :=
  match toks, seps with
  | t :: toks', sep :: seps' => t +:+ sep +:+ weave toks' seps'
  | t :: _, [] => t
  | [], _ => ""
  end.

(** A separator: a non-empty run of whitespace. *)
Definition whitespace_run (sep : string) : Prop :=
  sep ≠ "" ∧ string_exists (fun c => negb (isspace c)) sep = false.

(** The classification the mask gives a word: listed as it is, or listed
    in lower case. *)
Definition listed (values : list string) (w : string) : Prop :=
  w ∈ values ∨ lower w ∈ values.

#[global] Instance listed_dec values w : Decision (listed values w).
Proof. unfold listed. apply _. Defined.

(** What [get_definition] and [_query_wiktionary] do with the fetched entries
    at the indices 0, 0 and 1: the outcome and the lines printed. *)
Definition extraction (fetched : list Entry) : outcome (option string) :=
  match fetched with
  | [] => Returned None
  | e :: _ =>
      match definitions e with
      | [] => Returned None
      | g :: _ =>
          match text g with
          | _ :: d :: _ => Returned (Some d)
          | _ => Raised IndexError
          end
      end
  end.

Definition report (language word : string) (fetched : list Entry) : list string :=
  match fetched with
  | [] => ["No " +:+ language +:+ " definition found for: '" +:+ word +:+ "'"]
  | e :: _ =>
      match definitions e with
      | [] => ["No definition found for: '" +:+ word +:+ "'"]
      | _ :: _ => []
      end
  end.

(** The second text element of the first definition group of the first
    entry, when the three exist. *)
Definition second_text (fetched : list Entry) : option string :=
  e ← fetched !! 0; g ← definitions e !! 0; text g !! 1.

(** The selection of [get_words] with the literal 100 of [df.head(100)] as
    the parameter [max_words]. *)
Definition select_words (max_words : Z) (common : FrequencyTable)
    (tokens : list string) : list string :=
  let df := tokens in
  let df := drop_duplicates df in
  let df := head max_words df in
  let mask := common_mask common df in
  boolean_index df (mask_not mask).

(** ** The definer on words of any alphabet

    [WiktionaryDefiner.lookup_word], [get_definition] and [define] once more,
    for words of any type [W] with a decidable equality, so that a word is
    not bound to the code points U+0000..U+00FF; [lower] stands for
    [str.lower] of the interpreter. A printed line is kept as its message and
    its word. *)

Module AnyStr.
Section Resolver.
Context {W : Type} `{EqDecision W}.
Variable lower : W -> W.
Variable language : string.
Variable parser : W -> string -> list Entry.

Inductive line : Type :=
  | NoEntry (lang : string) (word : W)   (* No {lang} definition found for: '{word}' *)
  | NoDefinition (word : W).             (* No definition found for: '{word}' *)

Record state : Type := mkState {
  entry : option (list Entry);
  requests : list (W * string);
  stdout : list line
}.

Definition M (A : Type) : Type := state -> outcome A * state.

Definition ret {A : Type} (a : A) : M A := fun st => (Returned a, st).

Definition bind {A B : Type} (m : M A) (k : A -> M B) : M B := fun st =>
  match m st with
  | (Returned a, st') => k a st'
  | (Raised e, st') => (Raised e, st')
  end.

Definition raise {A : Type} (e : exn) : M A := fun st => (Raised e, st).

Definition print (l : line) : M unit := fun st =>
  (Returned tt,
   {| entry := entry st; requests := requests st; stdout := stdout st ++ [l] |}).

Definition getitem {A : Type} (l : list A) (i : Z) : M A :=
  match py_index l i with
  | Some x => ret x
  | None => raise IndexError
  end.

Definition lookup_word (word : W) : M unit := fun st =>
  (Returned tt,
   {| entry := Some (parser word language);
      requests := requests st ++ [(word, language)];
      stdout := stdout st |}).

Definition get_entry : M (list Entry) := fun st =>
  match entry st with
  | Some e => (Returned e, st)
  | None => (Raised TypeError, st)
  end.

Definition get_definition (word : W) (entry_n definition_n : Z)
    : M (option string) :=
  bind (lookup_word word) (fun _ =>
  bind get_entry (fun fetched =>
  match fetched with
  | [] => bind (print (NoEntry language word)) (fun _ => ret None)
  | _ :: _ =>
      bind (getitem fetched entry_n) (fun e =>
      let definitions := definitions e in
      match py_index definitions definition_n with
      | None => bind (print (NoDefinition word)) (fun _ => ret None)
      | Some definition =>
          let text := text definition in
          bind (getitem text 1) (fun definition => ret (Some definition))
      end)
  end)).

Definition define (word : W) : M (option string) :=
  bind (get_definition word 0 0) (fun result =>
  match result with
  | None =>
      let lower := lower word in
      if bool_decide (lower ≠ word) then get_definition lower 0 0
      else ret result
  | Some _ => ret result
  end).

(** The lines one attempt prints. *)
Definition report (word : W) (fetched : list Entry) : list line :=
  match fetched with
  | [] => [NoEntry language word]
  | e :: _ =>
      match definitions e with
      | [] => [NoDefinition word]
      | _ :: _ => []
      end
  end.

Definition initial : state := {| entry := None; requests := []; stdout := [] |}.
End Resolver.
End AnyStr.

(** Words beyond U+00FF: the code points of [ascii] and three more, with
    [str.isupper] and [str.lower] of the interpreter on each of them. *)
Inductive codepoint : Type :=
  | Latin1 (c : ascii)
  | U2102   (* DOUBLE-STRUCK CAPITAL C: upper case, with no lower case form *)
  | U01C5   (* LATIN CAPITAL LETTER D WITH SMALL LETTER Z WITH CARON: title case *)
  | U01C6.  (* LATIN SMALL LETTER DZ WITH CARON *)

#[global] Instance codepoint_eq_dec : EqDecision codepoint.
Proof. solve_decision. Defined.

Definition codepoint_isupper (c : codepoint) : bool :=
  match c with
  | Latin1 c => isupper c
  | U2102 => true
  | U01C5 => false
  | U01C6 => false
  end.

Definition codepoint_lower (c : codepoint) : codepoint :=
  match c with
  | Latin1 c => Latin1 (lower_char c)
  | U2102 => U2102
  | U01C5 => U01C6
  | U01C6 => U01C6
  end.

Definition wide_lower (w : list codepoint) : list codepoint :=
  codepoint_lower <$> w.

(** The word has an uppercase character: [str.isupper] holds of one of its
    characters. The code does not compute it; it is the condition that the
    specification gives for the retry of [define]. *)
Definition wide_has_upper (w : list codepoint) : bool :=
  existsb codepoint_isupper w.

(** A parser without any entry. *)
Definition silent_parser : list codepoint -> string -> list Entry :=
  fun _ _ => [].

(** An index that [l[i]] accepts. *)
Definition in_range {A : Type} (l : list A) (i : Z) : Prop :=
  (- Z.of_nat (length l) <= i < Z.of_nat (length l))%Z.

(** The strings of a list, one after the other. *)
Definition concat_all (items : list string) : string :=
  foldr String.append "" items.

(** What the parser alone says about a word: the outcome of one attempt,
    whether [define] makes its second attempt, the outcome of [define], and
    the requests it makes. *)
Definition attempt (self : WiktionaryDefiner.t) (word : string)
    : outcome (option string) :=
  extraction (WiktionaryDefiner.parser self word (WiktionaryDefiner.language self)).

Definition retries (self : WiktionaryDefiner.t) (word : string) : bool :=
  match attempt self word with
  | Returned None => bool_decide (lower word ≠ word)
  | _ => false
  end.

Definition resolution (self : WiktionaryDefiner.t) (word : string)
    : outcome (option string) :=
  if retries self word then attempt self (lower word) else attempt self word.

Definition asked (self : WiktionaryDefiner.t) (word : string)
    : list (string * string) :=
  let lang := WiktionaryDefiner.language self in
  if retries self word then [(word, lang); (lower word, lang)]
  else [(word, lang)].

Definition resolves (self : WiktionaryDefiner.t) (word : string) : bool :=
  match resolution self word with
  | Returned _ => true
  | Raised _ => false
  end.

Definition definition_of (self : WiktionaryDefiner.t) (word : string)
    : option string :=
  match resolution self word with
  | Returned d => d
  | Raised _ => None
  end.

(** The lines [define] prints for a word. *)
Definition said (self : WiktionaryDefiner.t) (word : string) : list string :=
  let lang := WiktionaryDefiner.language self in
  report lang word (WiktionaryDefiner.parser self word lang)
  ++ (if retries self word
      then report lang (lower word) (WiktionaryDefiner.parser self (lower word) lang)
      else []).

(** The word object a resolved word ends as. *)
Definition resolved_word (self : WiktionaryDefiner.t) (word : string) : Word.t :=
  Word.mk word (definition_of self word).

Definition is_semicolon (c : ascii) : bool := is_code 59 c.

(** * Properties *)

(** ** Characters and strings *)

Lemma lower_char_fixed (c : ascii) : lower_char c = c <-> isupper c = false.
Proof.
  destruct c as [[] [] [] [] [] [] [] []]; vm_compute; split; congruence.
Qed.

Lemma append_nil_l (b : string) : "" +:+ b = b.
Proof. reflexivity. Qed.

Lemma append_cons (c : ascii) (a b : string) :
  String c a +:+ b = String c (a +:+ b).
Proof. reflexivity. Qed.

Ltac string_simpl := rewrite ?append_nil_l, ?append_cons; simpl.

Lemma string_app_empty_r (s : string) : s +:+ "" = s.
Proof. induction s; string_simpl; congruence. Qed.

Lemma string_app_assoc (a b c : string) : (a +:+ b) +:+ c = a +:+ b +:+ c.
Proof. induction a; string_simpl; congruence. Qed.

Lemma string_exists_app (p : ascii -> bool) (a b : string) :
  string_exists p (a +:+ b) = string_exists p a || string_exists p b.
Proof.
  induction a as [|c a IH]; string_simpl; [reflexivity|].
  rewrite IH. apply orb_assoc.
Qed.

Lemma count_newlines_app (a b : string) :
  count_newlines (a +:+ b) = count_newlines a + count_newlines b.
Proof.
  induction a as [|c a IH]; string_simpl; [reflexivity|]. rewrite IH. lia.
Qed.

Lemma count_newlines_none (s : string) :
  string_exists is_newline s = false -> count_newlines s = 0.
Proof.
  induction s as [|c s IH]; simpl; [reflexivity|].
  intros [-> H]%orb_false_iff. rewrite IH by assumption. reflexivity.
Qed.

Lemma last_char_app (a b : string) :
  b ≠ "" -> last_char (a +:+ b) = last_char b.
Proof.
  intros Hb. induction a as [|c a IH]; string_simpl; [reflexivity|].
  rewrite <- IH. destruct (a +:+ b) eqn:E; [|reflexivity].
  destruct a; [rewrite append_nil_l in E; contradiction|discriminate].
Qed.

Lemma string_filter_all (p : ascii -> bool) (s : string) :
  string_exists (fun c => negb (p c)) s = false -> string_filter p s = s.
Proof.
  induction s as [|c s IH]; simpl; [reflexivity|].
  intros [Hc Hs]%orb_false_iff. apply negb_false_iff in Hc.
  rewrite Hc, IH by assumption. reflexivity.
Qed.

Lemma string_filter_ext (p q : ascii -> bool) (s : string) :
  (forall c, p c = q c) -> string_filter p s = string_filter q s.
Proof.
  intros H. induction s as [|c s IH]; simpl; [reflexivity|].
  rewrite H, IH. reflexivity.
Qed.

(** ** The pandas operations *)

Lemma drop_duplicates_from_elem (seen col : list string) (x : string) :
  x ∈ drop_duplicates_from seen col <-> x ∈ col ∧ x ∉ seen.
Proof.
  revert seen. induction col as [|y col IH]; intros seen; simpl.
  - rewrite elem_of_nil. tauto.
  - case_bool_decide as Hy.
    + rewrite IH, elem_of_cons. split; [tauto|].
      intros [[-> | ?] ?]; [contradiction | tauto].
    + rewrite elem_of_cons, IH, !elem_of_cons.
      destruct (decide (x = y)) as [-> | Hne]; [tauto|]. tauto.
Qed.

Lemma drop_duplicates_from_NoDup (seen col : list string) :
  NoDup (drop_duplicates_from seen col).
Proof.
  revert seen. induction col as [|y col IH]; intros seen; simpl.
  - constructor.
  - case_bool_decide; [apply IH|].
    constructor; [|apply IH].
    rewrite drop_duplicates_from_elem, elem_of_cons. tauto.
Qed.

Lemma drop_duplicates_from_sublist (seen col : list string) :
  drop_duplicates_from seen col `sublist_of` col.
Proof.
  revert seen. induction col as [|y col IH]; intros seen; simpl.
  - constructor.
  - case_bool_decide; [apply sublist_cons | apply sublist_skip]; apply IH.
Qed.

Lemma drop_duplicates_from_snoc (seen col : list string) (x : string) :
  drop_duplicates_from seen (col ++ [x]) =
  if decide (x ∈ seen ∨ x ∈ col) then drop_duplicates_from seen col
  else drop_duplicates_from seen col ++ [x].
Proof.
  revert seen. induction col as [|y col IH]; intros seen; simpl.
  - case_bool_decide; case_decide; try reflexivity;
      rewrite elem_of_nil in *; tauto.
  - case_bool_decide as Hy; rewrite IH; repeat case_decide;
      try reflexivity; rewrite ?elem_of_cons in *; exfalso;
      try tauto.
    all: destruct (decide (x = y)) as [-> | ?]; tauto.
Qed.

Lemma head_nonneg {A : Type} (n : Z) (rows : list A) :
  (0 <= n)%Z -> head n rows = take (Z.to_nat n) rows.
Proof. intros H. unfold head. rewrite (proj2 (Z.leb_le 0 n) H). reflexivity. Qed.

Lemma head_prefix {A : Type} (n : Z) (rows : list A) :
  head n rows `prefix_of` rows.
Proof. unfold head. destruct (0 <=? n)%Z; apply prefix_take. Qed.

Lemma head_sublist {A : Type} (n : Z) (rows : list A) :
  head n rows `sublist_of` rows.
Proof. unfold head. destruct (0 <=? n)%Z; apply sublist_take. Qed.

Lemma head_length {A : Type} (n : Z) (rows : list A) :
  (0 <= n)%Z -> length (head n rows) <= Z.to_nat n.
Proof. intros H. rewrite head_nonneg by assumption. rewrite length_take. lia. Qed.

Lemma common_mask_lookup (common : FrequencyTable) (df : list string)
    (i : nat) (w : string) :
  df !! i = Some w ->
  common_mask common df !! i =
    Some (bool_decide (listed (word_column common) w)).
Proof.
  unfold common_mask, mask_or, isin, str_lower.
  revert i. induction df as [|x df IH]; intros [|i]; simpl; try discriminate.
  - intros [= ->]. f_equal. unfold listed.
    repeat case_bool_decide; simpl; try reflexivity; tauto.
  - apply IH.
Qed.

Lemma boolean_index_common_mask (common : FrequencyTable) (df : list string) :
  boolean_index df (mask_not (common_mask common df)) =
  filter (fun w => ¬ listed (word_column common) w) df.
Proof.
  unfold common_mask, mask_or, mask_not, isin, str_lower.
  induction df as [|x df IH]; [reflexivity|].
  rewrite filter_cons, <- IH. cbn. unfold listed.
  repeat case_bool_decide; case_decide; simpl; try reflexivity; tauto.
Qed.

Lemma filter_take_prefix {A : Type} (P : A -> Prop) `{!forall x, Decision (P x)}
    (n : nat) (l : list A) :
  filter P (take n l) `prefix_of` filter P l.
Proof.
  rewrite <- (take_drop n l) at 2. rewrite filter_app. apply prefix_app_r.
  reflexivity.
Qed.

Lemma filter_head_prefix {A : Type} (P : A -> Prop) `{!forall x, Decision (P x)}
    (n : Z) (l : list A) :
  filter P (head n l) `prefix_of` filter P l.
Proof. unfold head. destruct (0 <=? n)%Z; apply filter_take_prefix. Qed.

(** ** Splitting on whitespace *)

Lemma split_empty : split_by_whitespace "" = [""].
Proof. reflexivity. Qed.

Lemma split_space_run (c c' : ascii) (s : string) :
  isspace c = true -> isspace c' = true ->
  split_by_whitespace (String c (String c' s)) =
  split_by_whitespace (String c' s).
Proof.
  intros Hc Hc'. cbn [split_by_whitespace]. unfold WHITESPACE.
  rewrite Hc, Hc'. reflexivity.
Qed.

Lemma split_space_last (c : ascii) (s : string) :
  isspace c = true -> (forall c', first_char s = Some c' -> isspace c' = false) ->
  split_by_whitespace (String c s) = "" :: split_by_whitespace s.
Proof.
  intros Hc Hs. cbn [split_by_whitespace]. unfold WHITESPACE. rewrite Hc.
  destruct s as [|c' s]; [reflexivity|].
  rewrite (Hs c' eq_refl). reflexivity.
Qed.

Lemma split_nonempty (s : string) : split_by_whitespace s ≠ [].
Proof.
  induction s as [|c s IH]; [discriminate|].
  cbn [split_by_whitespace]. destruct (WHITESPACE c).
  - destruct s as [|c' s]; [discriminate|].
    destruct (WHITESPACE c'); [exact IH|discriminate].
  - destruct (split_by_whitespace s); discriminate.
Qed.

Lemma split_char (c : ascii) (s : string) :
  isspace c = false ->
  exists tok toks,
    split_by_whitespace s = tok :: toks
    ∧ split_by_whitespace (String c s) = String c tok :: toks.
Proof.
  intros Hc. cbn [split_by_whitespace]. unfold WHITESPACE at 1. rewrite Hc.
  destruct (split_by_whitespace s) as [|tok toks] eqn:E.
  - destruct (split_nonempty s E).
  - eauto.
Qed.

(** A string that starts with whitespace splits into an empty first token. *)
Lemma split_leading_space (c : ascii) (s : string) :
  isspace c = true ->
  exists rest, split_by_whitespace (String c s) = "" :: rest.
Proof.
  revert c. induction s as [|c' s IH]; intros c Hc.
  - eexists. apply split_space_last; [assumption|]. intros ? [=].
  - destruct (isspace c') eqn:Hc'.
    + rewrite split_space_run by assumption. apply IH, Hc'.
    + eexists. apply split_space_last; [assumption|].
      intros ? [= <-]. assumption.
Qed.

Ltac split_last c :=
  rewrite (split_space_last c);
  [ | assumption | solve [intros ? [=]] || (intros ? [= <-]; assumption) ].

(** No token holds a whitespace character. *)
Lemma split_tokens_no_space (s : string) :
  Forall (fun tok => string_exists isspace tok = false) (split_by_whitespace s).
Proof.
  induction s as [|c s IH]; [repeat constructor|].
  destruct (isspace c) eqn:Hc.
  - destruct s as [|c' s].
    + split_last c. repeat constructor.
    + destruct (isspace c') eqn:Hc'.
      * rewrite split_space_run by assumption. exact IH.
      * split_last c. constructor; [reflexivity|exact IH].
  - destruct (split_char c s Hc) as (tok & toks & E & ->).
    rewrite E in IH. inversion IH; subst.
    constructor; [|assumption]. simpl. rewrite Hc. assumption.
Qed.

(** The string is its tokens with runs of whitespace between them. *)
Lemma split_weave (s : string) :
  exists seps,
    length (split_by_whitespace s) = S (length seps)
    ∧ Forall whitespace_run seps
    ∧ weave (split_by_whitespace s) seps = s.
Proof.
  induction s as [|c s (seps & Hlen & Hseps & Hw)].
  - exists []. repeat split; constructor.
  - destruct (isspace c) eqn:Hc.
    + destruct s as [|c' s].
      * exists [String c ""]. split_last c. repeat split.
        repeat constructor; [discriminate|]. simpl. rewrite Hc. reflexivity.
      * destruct (isspace c') eqn:Hc'.
        -- rewrite split_space_run by assumption.
           destruct (split_leading_space c' s Hc') as [rest E].
           rewrite E in *. destruct seps as [|sep seps].
           { simpl in Hlen. destruct rest; [discriminate Hw|discriminate Hlen]. }
           exists (String c sep :: seps).
           inversion Hseps as [|? ? [Hne Hall] Hrest]; subst.
           repeat split; [exact Hlen| |].
           ++ constructor; [|assumption]. split; [discriminate|].
              simpl. rewrite Hc. exact Hall.
           ++ cbn [weave] in *. rewrite append_nil_l in *.
              rewrite append_cons, Hw. reflexivity.
        -- rewrite (split_space_last c);
             [|assumption|intros ? [= <-]; assumption].
           exists (String c "" :: seps). repeat split.
           ++ cbn [length]. rewrite Hlen. reflexivity.
           ++ constructor; [|assumption]. split; [discriminate|].
              simpl. rewrite Hc. reflexivity.
           ++ cbn [weave]. rewrite append_nil_l, append_cons, append_nil_l, Hw.
              reflexivity.
    + destruct (split_char c s Hc) as (tok & toks & E & ->).
      rewrite E in *. exists seps. repeat split; [exact Hlen|assumption|].
      destruct seps as [|sep seps]; cbn [weave] in *.
      * rewrite Hw. reflexivity.
      * rewrite append_cons, Hw. reflexivity.
Qed.

(** Only the first and the last token can be empty. *)
Lemma split_first_token (c : ascii) (s : string) :
  isspace c = false ->
  exists tok toks, split_by_whitespace (String c s) = String c tok :: toks.
Proof.
  intros Hc. destruct (split_char c s Hc) as (tok & toks & _ & E). eauto.
Qed.

Lemma split_inner_tokens (s : string) (i : nat) :
  0 < i -> S i < length (split_by_whitespace s) ->
  split_by_whitespace s !! i ≠ Some "".
Proof.
  revert i. induction s as [|c s IH]; intros i Hi Hlen.
  - simpl in Hlen. lia.
  - destruct (isspace c) eqn:Hc.
    + destruct s as [|c' s].
      * rewrite (split_space_last c) in Hlen; [|assumption|intros ? [=]].
        simpl in Hlen. lia.
      * destruct (isspace c') eqn:Hc'.
        -- rewrite split_space_run in * by assumption. apply IH; assumption.
        -- assert (E : split_by_whitespace (String c (String c' s)) =
                        "" :: split_by_whitespace (String c' s)).
           { apply split_space_last; [assumption|].
             intros ? [= <-]. assumption. }
           rewrite E in *. clear E.
           destruct i as [|i]; [lia|]. cbn [length lookup list_lookup] in *.
           destruct i as [|i].
           ++ destruct (split_first_token c' s Hc') as (tok & toks & ->).
              simpl. discriminate.
           ++ apply IH; lia.
    + destruct (split_char c s Hc) as (tok & toks & E & E').
      rewrite E in IH. rewrite E' in *.
      destruct i as [|i]; [lia|]. cbn [length lookup list_lookup] in *.
      apply (IH (S i)); [lia|cbn [length]; lia].
Qed.

(** A string that ends with whitespace splits into an empty last token. *)
Lemma split_trailing_space (s : string) (c : ascii) :
  last_char s = Some c -> isspace c = true ->
  last (split_by_whitespace s) = Some "".
Proof.
  induction s as [|c0 s IH]; [discriminate|].
  intros Hlast Hc. destruct s as [|c1 s].
  - injection Hlast as ->.
    rewrite split_space_last; [reflexivity|assumption|intros ? [=]].
  - change (last_char (String c1 s) = Some c) in Hlast.
    specialize (IH Hlast Hc).
    destruct (isspace c0) eqn:Hc0.
    + destruct (isspace c1) eqn:Hc1.
      * rewrite split_space_run by assumption. exact IH.
      * rewrite (split_space_last c0);
          [|assumption|intros ? [= <-]; assumption].
        destruct (split_by_whitespace (String c1 s)) eqn:E; [discriminate IH|].
        exact IH.
    + destruct (split_char c0 (String c1 s) Hc0) as (tok & toks & E & ->).
      rewrite E in IH. destruct toks as [|tok' toks]; [|exact IH].
      destruct (split_weave (String c1 s)) as (seps & Hlen & _ & Hw).
      rewrite E in *. destruct seps; [|discriminate Hlen].
      simpl in IH, Hw. injection IH as ->. discriminate Hw.
Qed.

(** ** The definer *)

Lemma py_index_0 {A : Type} (l : list A) : py_index l 0 = l !! 0.
Proof. reflexivity. Qed.

Lemma py_index_1 {A : Type} (l : list A) : py_index l 1 = l !! 1.
Proof. reflexivity. Qed.

Lemma get_definition_run (self : WiktionaryDefiner.t) (word : string) (st : state) :
  let fetched := WiktionaryDefiner.parser self word (WiktionaryDefiner.language self) in
  WiktionaryDefiner.get_definition self word 0 0 st =
  (extraction fetched,
   {| entry := Some fetched;
      requests := requests st ++ [(word, WiktionaryDefiner.language self)];
      stdout := stdout st ++ report (WiktionaryDefiner.language self) word fetched |}).
Proof.
  unfold WiktionaryDefiner.get_definition, WiktionaryDefiner.lookup_word,
    WiktionaryDefiner.get_entry, mbind, M_bind, mret, M_ret, print, getitem,
    raise, extraction, report, py_index.
  change (Z.to_nat 0) with 0%nat. change (Z.to_nat 1) with 1%nat. cbn.
  destruct (WiktionaryDefiner.parser self word _) as [|e es]; cbn; [reflexivity|].
  destruct (definitions e) as [|g gs]; cbn; [reflexivity|].
  destruct (text g) as [|t0 [|t1 ts]]; cbn; rewrite app_nil_r; reflexivity.
Qed.

Lemma define_run (self : WiktionaryDefiner.t) (word : string) (st : state) :
  WiktionaryDefiner.define self word st =
  let first := WiktionaryDefiner.get_definition self word 0 0 st in
  match first.1 with
  | Returned None =>
      if bool_decide (lower word ≠ word)
      then WiktionaryDefiner.get_definition self (lower word) 0 0 first.2
      else first
  | _ => first
  end.
Proof.
  unfold WiktionaryDefiner.define, mbind, M_bind. cbn zeta.
  destruct (WiktionaryDefiner.get_definition self word 0 0 st) as [[[d|]|e] st'];
    cbn; try reflexivity.
  case_bool_decide; reflexivity.
Qed.

Lemma define_requests (self : WiktionaryDefiner.t) (word : string) (st : state) :
  let lang := WiktionaryDefiner.language self in
  requests (WiktionaryDefiner.define self word st).2 = requests st ++ [(word, lang)]
  ∨ requests (WiktionaryDefiner.define self word st).2 =
      requests st ++ [(word, lang); (lower word, lang)].
Proof.
  cbn zeta. rewrite define_run. cbn zeta. rewrite !get_definition_run. cbn.
  destruct (extraction _) as [[d|]|e]; cbn; auto.
  case_bool_decide; cbn; [|auto].
  right. rewrite <- app_assoc. reflexivity.
Qed.

Lemma word_get_definition_run (self : WiktionaryDefiner.t) (w : Word.t) (st : state) :
  Word.get_definition w self st =
  match WiktionaryDefiner.define self (Word.word w) st with
  | (Returned d, st') =>
      (Returned {| Word.word := Word.word w; Word.definition := d |}, st')
  | (Raised e, st') => (Raised e, st')
  end.
Proof. reflexivity. Qed.

Lemma resolve_all_cons (self : WiktionaryDefiner.t) (w : Word.t)
    (rest : list Word.t) (st : state) :
  resolve_all self (w :: rest) st =
  match WiktionaryDefiner.define self (Word.word w) st with
  | (Returned d, st') =>
      match resolve_all self rest st' with
      | (Returned rest', st'') =>
          (Returned ({| Word.word := Word.word w; Word.definition := d |} :: rest'), st'')
      | (Raised e, st'') => (Raised e, st'')
      end
  | (Raised e, st') => (Raised e, st')
  end.
Proof.
  cbn [resolve_all]. unfold mbind, M_bind at 1. rewrite word_get_definition_run.
  destruct (WiktionaryDefiner.define self (Word.word w) st) as [[d|e] st'];
    [|reflexivity].
  unfold M_bind. destruct (resolve_all self rest st') as [[rest'|e] st''];
    reflexivity.
Qed.

(** The loop keeps the words and their order, asks for every word, and makes
    at most two requests for each. *)
Lemma resolve_all_returned (self : WiktionaryDefiner.t) (words ws : list Word.t)
    (st st' : state) :
  resolve_all self words st = (Returned ws, st') ->
  Word.word <$> ws = Word.word <$> words
  ∧ (forall w, w ∈ words ->
       (Word.word w, WiktionaryDefiner.language self) ∈ requests st').
Proof.
  revert ws st. induction words as [|w rest IH]; intros ws st.
  - intros [= <- <-]. split; [reflexivity|]. intros w Hw. inversion Hw.
  - rewrite resolve_all_cons.
    destruct (WiktionaryDefiner.define self (Word.word w) st) as [[d|e] st1] eqn:E1;
      [|discriminate].
    destruct (resolve_all self rest st1) as [[rest'|e] st2] eqn:E2; [|discriminate].
    intros [= <- <-]. destruct (IH _ _ E2) as [IHw IHr].
    split; [cbn; rewrite IHw; reflexivity|].
    intros w' [-> | Hin]%elem_of_cons; [|apply IHr, Hin].
    assert (Hgrow : exists more, requests st2 = requests st1 ++ more).
    { clear -E2. revert rest' st1 E2.
      induction rest as [|w0 rest IH0]; intros rest' st1.
      - intros [= <- <-]. exists []. rewrite app_nil_r. reflexivity.
      - rewrite resolve_all_cons.
        destruct (WiktionaryDefiner.define self (Word.word w0) st1)
          as [[d0|e0] sta] eqn:Ea; [|discriminate].
        destruct (resolve_all self rest sta) as [[r0|e0] stb] eqn:Eb; [|discriminate].
        intros [= <- <-]. destruct (IH0 _ _ Eb) as [more Hmore].
        pose proof (define_requests self (Word.word w0) st1) as Hd.
        rewrite Ea in Hd. cbn in Hd. rewrite Hmore.
        destruct Hd as [-> | ->]; rewrite <- app_assoc; eauto. }
    destruct Hgrow as [more ->].
    pose proof (define_requests self (Word.word w) st) as Hd.
    rewrite E1 in Hd. cbn in Hd.
    destruct Hd as [-> | ->]; rewrite !elem_of_app, !elem_of_cons; tauto.
Qed.

Lemma resolve_all_requests (self : WiktionaryDefiner.t) (words : list Word.t)
    (st : state) :
  exists more,
    requests (resolve_all self words st).2 = requests st ++ more
    ∧ length more <= 2 * length words
    ∧ (forall w rest, words = w :: rest ->
         exists more', more = (Word.word w, WiktionaryDefiner.language self) :: more').
Proof.
  revert st. induction words as [|w rest IH]; intros st.
  - exists []. cbn. rewrite app_nil_r. repeat split; [lia|discriminate].
  - rewrite resolve_all_cons.
    pose proof (define_requests self (Word.word w) st) as Hd.
    destruct (WiktionaryDefiner.define self (Word.word w) st) as [[d|e] st1] eqn:E1;
      cbn in Hd.
    + destruct (IH st1) as (more & Hmore & Hlen & _).
      assert (Hreq :
        requests (match resolve_all self rest st1 with
                  | (Returned rest', st'') =>
                      (Returned ({| Word.word := Word.word w;
                                    Word.definition := d |} :: rest'), st'')
                  | (Raised e, st'') => (Raised e, st'')
                  end).2 = requests (resolve_all self rest st1).2).
      { destruct (resolve_all self rest st1) as [[?|?] ?]; reflexivity. }
      rewrite Hreq, Hmore. clear Hreq.
      destruct Hd as [-> | ->]; rewrite <- app_assoc; eexists;
        (split; [reflexivity|]); (split; [cbn; lia|]);
        intros ? ? [= <- <-]; cbn; eauto.
    + cbn. destruct Hd as [-> | ->]; eexists;
        (split; [reflexivity|]); (split; [cbn; lia|]);
        intros ? ? [= <- <-]; cbn; eauto.
Qed.

Lemma _query_wiktionary_run (PARSER : Parser) (word : string) (st : state) :
  let fetched := PARSER word Source.LANGUAGE in
  Source._query_wiktionary PARSER word st =
  (extraction fetched,
   {| entry := entry st;
      requests := requests st ++ [(word, Source.LANGUAGE)];
      stdout := stdout st ++ report Source.LANGUAGE word fetched |}).
Proof.
  unfold Source._query_wiktionary, Source.fetch, mbind, M_bind, mret, M_ret,
    print, getitem, raise, extraction, report, py_index.
  change (Z.to_nat 0) with 0%nat. change (Z.to_nat 1) with 1%nat. cbn.
  destruct (PARSER word _) as [|e es]; cbn; [reflexivity|].
  destruct (definitions e) as [|g gs]; cbn; [reflexivity|].
  destruct (text g) as [|t0 [|t1 ts]]; cbn; rewrite app_nil_r; reflexivity.
Qed.

(** [query_wiktionary] of [source.py] and [WiktionaryDefiner.define] give the
    same outcome, requests and printed lines; only [define] stores the
    fetched entries in [self.entry]. *)
Lemma query_wiktionary_define (PARSER : Parser) (word : string) (st : state) :
  let r := WiktionaryDefiner.define (WiktionaryDefiner.mk Source.LANGUAGE PARSER) word st in
  Source.query_wiktionary PARSER word st =
  (r.1, {| entry := entry st; requests := requests r.2; stdout := stdout r.2 |}).
Proof.
  cbn zeta. rewrite define_run. cbn zeta.
  unfold Source.query_wiktionary, mbind, M_bind.
  rewrite !_query_wiktionary_run, !get_definition_run. cbn.
  destruct (extraction (PARSER word Source.LANGUAGE)) as [[d|]|e]; cbn;
    try reflexivity.
  case_bool_decide; [|reflexivity].
  rewrite _query_wiktionary_run. reflexivity.
Qed.

(** The extraction returns the second text element when it exists, nothing
    when there is no entry or no definition group, and raises when the first
    group has fewer than two text elements. *)
Lemma extraction_found (fetched : list Entry) (d : string) :
  extraction fetched = Returned (Some d) <-> second_text fetched = Some d.
Proof.
  unfold extraction, second_text. destruct fetched as [|e es]; cbn; [easy|].
  destruct (definitions e) as [|g gs]; cbn; [easy|].
  destruct (text g) as [|t0 [|t1 ts]]; cbn; split; congruence.
Qed.

Lemma extraction_nothing (fetched : list Entry) :
  extraction fetched = Returned None <->
  fetched = [] ∨ exists e es, fetched = e :: es ∧ definitions e = [].
Proof.
  unfold extraction. destruct fetched as [|e es]; [tauto|].
  destruct (definitions e) as [|g gs] eqn:E.
  - split; [|reflexivity]. intros _. right. eauto.
  - split.
    + destruct (text g) as [|t0 [|t1 ts]]; discriminate.
    + intros [? | (e' & es' & [= <- <-] & He)]; congruence.
Qed.

Lemma extraction_raises (fetched : list Entry) (e : exn) :
  extraction fetched = Raised e <->
  e = IndexError
  ∧ exists e0 es g gs,
      fetched = e0 :: es ∧ definitions e0 = g :: gs ∧ length (text g) < 2.
Proof.
  unfold extraction. destruct fetched as [|e0 es].
  - split; [discriminate|]. intros (_ & ? & ? & ? & ? & ? & _). discriminate.
  - destruct (definitions e0) as [|g gs] eqn:E.
    + split; [discriminate|].
      intros (_ & ? & ? & ? & ? & [= <- <-] & ? & _). congruence.
    + destruct (text g) as [|t0 [|t1 ts]] eqn:Et.
      * split; [intros [= <-]|intros [-> _]; reflexivity].
        split; [reflexivity|]. exists e0, es, g, gs. rewrite Et. cbn. auto with lia.
      * split; [intros [= <-]|intros [-> _]; reflexivity].
        split; [reflexivity|]. exists e0, es, g, gs. rewrite Et. cbn. auto with lia.
      * split; [discriminate|].
        intros (_ & ? & ? & g' & ? & [= <- <-] & Hg & Hlen).
        rewrite E in Hg. injection Hg as <- <-. rewrite Et in Hlen.
        cbn in Hlen. lia.
Qed.

(** ** The claims *)

(** C1. [get_definition] takes the second text element of the first
    definition group of the first entry, and returns nothing when there is no
    entry or no definition group; but a first group with fewer than two text
    elements is not reported as "no definition": [text[1]] lies outside the
    [try] block, the [IndexError] escapes [get_definition] and [define], and
    it ends [get_words]. The input: a parser whose first definition group
    holds the headword line only. *)
Theorem C1_short_text_raises_IndexError :
  second_text (headword_only_parser "stub" "english") = None
  ∧ (WiktionaryDefiner.get_definition stub_definer "stub" 0 0 initial).1
    = Raised IndexError
  ∧ (WiktionaryDefiner.define stub_definer "stub" initial).1 = Raised IndexError
  ∧ (Source.query_wiktionary headword_only_parser "stub" initial).1
    = Raised IndexError
  ∧ (Wiki2Anki.get_words stub_run initial).1 = Raised IndexError.
Proof. repeat split; vm_compute; reflexivity. Qed.

(** [get_deck] never returns a string: [get_words] has no [return]
    statement, and [get_cards] iterates over its value. *)
Lemma get_words_never_returns_words (self : Wiki2Anki.t) (st : state) :
  (Wiki2Anki.get_words self st).1 = Returned None
  ∨ exists e, (Wiki2Anki.get_words self st).1 = Raised e.
Proof.
  unfold Wiki2Anki.get_words, mbind, M_bind.
  destruct (Wiki2Anki.get_words_locals self st) as [[ws|e] st']; cbn; eauto.
Qed.

Lemma get_deck_always_raises (self : Wiki2Anki.t) (st : state) :
  exists e, (Wiki2Anki.get_deck self st).1 = Raised e.
Proof.
  unfold Wiki2Anki.get_deck, Wiki2Anki.get_cards, Wiki2Anki.get_words, mbind, M_bind.
  destruct (Wiki2Anki.get_words_locals self st) as [[ws|e] st']; cbn; eauto.
Qed.

(** C2. In the scenario of the specification the words are selected and
    resolved as the claim says ([Fox] with its definition, [jumps] without
    one), and [as_string] renders the cards made from them as the single
    line of the claim; but [get_words] returns [None] instead of that list,
    so [get_cards] raises [TypeError] and [get_deck] produces no deck. *)
Theorem C2_fox_scenario_raises_TypeError :
  (Wiki2Anki.get_words_locals fox_run initial).1
  = Returned [ Word.mk "Fox" (Some "a wild canine"); Word.mk "jumps" None ]
  ∧ Deck.as_string
      (Flashcard.from_word
         <$> [ Word.mk "Fox" (Some "a wild canine"); Word.mk "jumps" None ])
    = "Fox; " +:+ dquote +:+ "a wild canine" +:+ dquote
  ∧ (Wiki2Anki.get_words fox_run initial).1 = Returned None
  ∧ (Wiki2Anki.get_cards fox_run initial).1 = Raised TypeError
  ∧ (Wiki2Anki.get_deck fox_run initial).1 = Raised TypeError.
Proof. repeat split; vm_compute; reflexivity. Qed.

Lemma any_get_definition_run {W : Type} `{EqDecision W} (language : string)
    (parser : W -> string -> list Entry) (word : W) (st : AnyStr.state) :
  let fetched := parser word language in
  AnyStr.get_definition language parser word 0 0 st =
  (extraction fetched,
   {| AnyStr.entry := Some fetched;
      AnyStr.requests := AnyStr.requests st ++ [(word, language)];
      AnyStr.stdout := AnyStr.stdout st ++ AnyStr.report language word fetched |}).
Proof.
  unfold AnyStr.get_definition, AnyStr.lookup_word, AnyStr.get_entry,
    AnyStr.bind, AnyStr.ret, AnyStr.print, AnyStr.getitem, AnyStr.raise,
    AnyStr.report, extraction, py_index.
  change (Z.to_nat 0) with 0%nat. change (Z.to_nat 1) with 1%nat. cbn.
  destruct (parser word language) as [|e es]; cbn; [reflexivity|].
  destruct (definitions e) as [|g gs]; cbn; [reflexivity|].
  destruct (text g) as [|t0 [|t1 ts]]; cbn; rewrite app_nil_r; reflexivity.
Qed.

Lemma any_define_run {W : Type} `{EqDecision W} (str_lower : W -> W)
    (language : string) (parser : W -> string -> list Entry) (word : W)
    (st : AnyStr.state) :
  AnyStr.define str_lower language parser word st =
  let first := AnyStr.get_definition language parser word 0 0 st in
  match first.1 with
  | Returned None =>
      if bool_decide (str_lower word ≠ word)
      then AnyStr.get_definition language parser (str_lower word) 0 0 first.2
      else first
  | _ => first
  end.
Proof.
  unfold AnyStr.define, AnyStr.bind. cbn zeta.
  destruct (AnyStr.get_definition language parser word 0 0 st)
    as [[[d|]|e] st']; cbn; try reflexivity.
  case_bool_decide; reflexivity.
Qed.

(** The definer on words of any alphabet, taken at the strings of the
    model, is the definer of the model: same outcome and same requests. *)
Lemma any_define_at_strings (self : WiktionaryDefiner.t) (word : string)
    (st : state) (st' : AnyStr.state) :
  let any :=
    AnyStr.define lower (WiktionaryDefiner.language self)
      (WiktionaryDefiner.parser self) word st' in
  let own := WiktionaryDefiner.define self word st in
  any.1 = own.1
  ∧ (AnyStr.requests st' = requests st -> AnyStr.requests any.2 = requests own.2).
Proof.
  cbn zeta. rewrite any_define_run, define_run. cbn zeta.
  rewrite !any_get_definition_run, !get_definition_run. cbn.
  destruct (extraction _) as [[d|]|e]; cbn; try (split; congruence).
  case_bool_decide; rewrite ?any_get_definition_run; cbn; split; congruence.
Qed.

(** C3, as stated, fails beyond U+00FF: the condition of the retry is
    [lower != word], and that is not having an uppercase character. The
    double-struck capital C (U+2102) is an uppercase character that
    [str.lower] leaves as it is: the first attempt returns nothing and no
    second attempt is made. The title case letter U+01C5 is no uppercase
    character, and [str.lower] turns it into U+01C6: a second attempt is
    made. *)
Lemma C3_counterexample_uppercase_is_not_lowered :
  (wide_has_upper [U2102] = true
   ∧ (AnyStr.get_definition "english" silent_parser [U2102] 0 0 AnyStr.initial).1
     = Returned None
   ∧ AnyStr.requests
       (AnyStr.define wide_lower "english" silent_parser [U2102] AnyStr.initial).2
     = [([U2102], "english")])
  ∧ (wide_has_upper [U01C5] = false
     ∧ AnyStr.requests
         (AnyStr.define wide_lower "english" silent_parser [U01C5] AnyStr.initial).2
       = [([U01C5], "english"); ([U01C6], "english")]).
Proof. repeat split; vm_compute; reflexivity. Qed.

(** C3, amended. When the first attempt returns nothing and the word differs
    from its lowercased form, [define] makes one more attempt, with the
    lowercased word, and its result is the result of that attempt; a word
    equal to its lowercased form is looked up once; a first attempt that
    found a definition (or raised) is final; and no call makes more than two
    requests. This holds for words of any alphabet and any [str.lower], and
    for the strings of the model. *)
Theorem C3_define_lowercase_fallback {W : Type} `{EqDecision W}
    (str_lower : W -> W) (language : string)
    (parser : W -> string -> list Entry) (word : W) (st : AnyStr.state)
    (self : WiktionaryDefiner.t) (w : string) (s : state) :
  let first := AnyStr.get_definition language parser word 0 0 st in
  let result := AnyStr.define str_lower language parser word st in
  let lang := WiktionaryDefiner.language self in
  let first' := WiktionaryDefiner.get_definition self w 0 0 s in
  let result' := WiktionaryDefiner.define self w s in
  ((first.1 = Returned None -> str_lower word ≠ word ->
      result = AnyStr.get_definition language parser (str_lower word) 0 0 first.2
      ∧ AnyStr.requests result.2
        = AnyStr.requests st ++ [(word, language); (str_lower word, language)])
   ∧ (str_lower word = word ->
      result = first
      ∧ AnyStr.requests result.2 = AnyStr.requests st ++ [(word, language)])
   ∧ (first.1 ≠ Returned None ->
      result = first
      ∧ AnyStr.requests result.2 = AnyStr.requests st ++ [(word, language)])
   ∧ length (AnyStr.requests result.2) <= length (AnyStr.requests st) + 2)
  ∧ ((first'.1 = Returned None -> lower w ≠ w ->
        result' = WiktionaryDefiner.get_definition self (lower w) 0 0 first'.2
        ∧ requests result'.2 = requests s ++ [(w, lang); (lower w, lang)])
     ∧ (lower w = w ->
        result' = first' ∧ requests result'.2 = requests s ++ [(w, lang)])
     ∧ (first'.1 ≠ Returned None ->
        result' = first' ∧ requests result'.2 = requests s ++ [(w, lang)])
     ∧ length (requests result'.2) <= length (requests s) + 2).
Proof.
  cbn zeta. split.
  - rewrite any_define_run. cbn zeta.
    split; [|split; [|split]].
    + intros Hnone Hlower. rewrite Hnone, bool_decide_true by exact Hlower.
      split; [reflexivity|].
      rewrite !any_get_definition_run. cbn. rewrite <- app_assoc. reflexivity.
    + intros Hsame.
      rewrite bool_decide_false by (intros Hne; contradiction).
      assert (Hfirst :
        match (AnyStr.get_definition language parser word 0 0 st).1 with
        | Returned None => AnyStr.get_definition language parser word 0 0 st
        | _ => AnyStr.get_definition language parser word 0 0 st
        end = AnyStr.get_definition language parser word 0 0 st).
      { destruct (AnyStr.get_definition language parser word 0 0 st).1
          as [[?|]|?]; reflexivity. }
      rewrite Hfirst. split; [reflexivity|].
      rewrite any_get_definition_run. reflexivity.
    + intros Hfound.
      assert (Hfirst :
        match (AnyStr.get_definition language parser word 0 0 st).1 with
        | Returned None =>
            if bool_decide (str_lower word ≠ word)
            then AnyStr.get_definition language parser (str_lower word) 0 0
                   (AnyStr.get_definition language parser word 0 0 st).2
            else AnyStr.get_definition language parser word 0 0 st
        | _ => AnyStr.get_definition language parser word 0 0 st
        end = AnyStr.get_definition language parser word 0 0 st).
      { destruct (AnyStr.get_definition language parser word 0 0 st).1
          as [[?|]|?]; try reflexivity. contradiction. }
      rewrite Hfirst. split; [reflexivity|].
      rewrite any_get_definition_run. reflexivity.
    + rewrite !any_get_definition_run. cbn.
      destruct (extraction _) as [[?|]|?]; cbn; rewrite ?length_app; cbn;
        try lia.
      case_bool_decide; cbn; rewrite ?length_app; cbn; lia.
  - rewrite define_run. cbn zeta.
    split; [|split; [|split]].
    + intros Hnone Hlower. rewrite Hnone, bool_decide_true by exact Hlower.
      split; [reflexivity|].
      rewrite !get_definition_run. cbn. rewrite <- app_assoc. reflexivity.
    + intros Hsame.
      rewrite bool_decide_false by (intros Hne; contradiction).
      assert (Hfirst :
        match (WiktionaryDefiner.get_definition self w 0 0 s).1 with
        | Returned None => WiktionaryDefiner.get_definition self w 0 0 s
        | _ => WiktionaryDefiner.get_definition self w 0 0 s
        end = WiktionaryDefiner.get_definition self w 0 0 s).
      { destruct (WiktionaryDefiner.get_definition self w 0 0 s).1
          as [[?|]|?]; reflexivity. }
      rewrite Hfirst. split; [reflexivity|].
      rewrite get_definition_run. reflexivity.
    + intros Hfound.
      assert (Hfirst :
        match (WiktionaryDefiner.get_definition self w 0 0 s).1 with
        | Returned None =>
            if bool_decide (lower w ≠ w)
            then WiktionaryDefiner.get_definition self (lower w) 0 0
                   (WiktionaryDefiner.get_definition self w 0 0 s).2
            else WiktionaryDefiner.get_definition self w 0 0 s
        | _ => WiktionaryDefiner.get_definition self w 0 0 s
        end = WiktionaryDefiner.get_definition self w 0 0 s).
      { destruct (WiktionaryDefiner.get_definition self w 0 0 s).1
          as [[?|]|?]; try reflexivity. contradiction. }
      rewrite Hfirst. split; [reflexivity|].
      rewrite get_definition_run. reflexivity.
    + rewrite !get_definition_run. cbn.
      destruct (extraction _) as [[?|]|?]; cbn; rewrite ?length_app; cbn;
        try lia.
      case_bool_decide; cbn; rewrite ?length_app; cbn; lia.
Qed.

Lemma C3_define_lowercase_fallback_witness :
  (AnyStr.define wide_lower "english" silent_parser [U01C5] AnyStr.initial
   = AnyStr.get_definition "english" silent_parser [U01C6] 0 0
       (AnyStr.get_definition "english" silent_parser [U01C5] 0 0
          AnyStr.initial).2
   ∧ AnyStr.requests
       (AnyStr.define wide_lower "english" silent_parser [U2102] AnyStr.initial).2
     = [([U2102], "english")])
  ∧ requests
      (WiktionaryDefiner.define (WiktionaryDefiner.mk "english" fox_parser)
         "Fox" initial).2
    = [("Fox", "english"); ("fox", "english")].
Proof.
  pose proof (C3_define_lowercase_fallback wide_lower "english" silent_parser
                [U01C5] AnyStr.initial
                (WiktionaryDefiner.mk "english" fox_parser) "Fox" initial)
    as [(Hretry & _) (Hfox & _)].
  pose proof (C3_define_lowercase_fallback wide_lower "english" silent_parser
                [U2102] AnyStr.initial
                (WiktionaryDefiner.mk "english" fox_parser) "Fox" initial)
    as [(_ & Hsame & _) _].
  split; [split|].
  - apply Hretry; [reflexivity|discriminate].
  - apply Hsame. reflexivity.
  - apply Hfox; [reflexivity|discriminate].
Defined.

Lemma word_column_head (limit : Z) (csv : FrequencyTable) :
  (0 <= limit)%Z -> word_column (head limit csv) = first_rows limit csv.
Proof.
  intros H. unfold word_column, first_rows. rewrite head_nonneg by assumption.
  apply fmap_take.
Qed.

Lemma remove_common_filter (csv : FrequencyTable) (df : list string) (top : Z) :
  Source.remove_common csv df top =
  filter (fun w => ¬ listed (word_column (head top csv)) w) df.
Proof. apply boolean_index_common_mask. Qed.

Lemma uncommon_words_filter (self : Wiki2Anki.t) :
  Wiki2Anki.uncommon_words self =
  filter (fun w => ¬ listed (word_column (Wiki2Anki.common self)) w)
    (head 100 (drop_duplicates
       (Page.get_words (Wiki2Anki.wiki self) (Wiki2Anki.cleaner self)))).
Proof. apply boolean_index_common_mask. Qed.

(** C4. With a non-negative limit, the mask of [get_words] and of
    [remove_common] flags a word exactly when its string, or its lowercased
    form, is among the first [limit] rows of the table; the words that
    survive are the unflagged ones. In particular [The] is flagged when [the]
    is among those rows, and [light] is not flagged when the rows hold
    [Light] but not [light]. *)
Theorem C4_common_iff_in_first_rows
    (csv : FrequencyTable) (limit : Z) (df : list string) :
  (0 <= limit)%Z ->
  let rows := first_rows limit csv in
  (forall i w, df !! i = Some w ->
     (common_mask (head limit csv) df !! i = Some true
      <-> is_common_spec csv limit w))
  ∧ (forall w, w ∈ Source.remove_common csv df limit
       <-> w ∈ df ∧ ¬ is_common_spec csv limit w)
  ∧ (forall url body parser w,
       let self := Wiki2Anki.new url limit body parser csv in
       w ∈ Wiki2Anki.uncommon_words self
       <-> w ∈ head 100 (drop_duplicates (clean BasicEnglishCleaner.mk body))
           ∧ ¬ is_common_spec csv limit w)
  ∧ ("the" ∈ rows -> forall i, df !! i = Some "The" ->
       common_mask (head limit csv) df !! i = Some true)
  ∧ ("Light" ∈ rows -> "light" ∉ rows -> forall i, df !! i = Some "light" ->
       common_mask (head limit csv) df !! i = Some false).
Proof.
  intros Hlimit rows.
  assert (Hflag : forall i w, df !! i = Some w ->
     common_mask (head limit csv) df !! i
     = Some (bool_decide (is_common_spec csv limit w))).
  { intros i w Hw. rewrite (common_mask_lookup _ _ _ _ Hw).
    unfold listed, is_common_spec. rewrite word_column_head by assumption.
    reflexivity. }
  assert (Hsel : forall (common : FrequencyTable) (l : list string) w,
     word_column common = rows ->
     w ∈ filter (fun w => ¬ listed (word_column common) w) l
     <-> w ∈ l ∧ ¬ is_common_spec csv limit w).
  { intros common l w Hcol. rewrite list_elem_of_filter.
    unfold listed, is_common_spec. rewrite Hcol. tauto. }
  split; [|split; [|split; [|split]]].
  - intros i w Hw. rewrite (Hflag _ _ Hw). split.
    + intros [= Hb]. apply bool_decide_eq_true in Hb. exact Hb.
    + intros Hc. f_equal. apply bool_decide_eq_true. exact Hc.
  - intros w. rewrite remove_common_filter. apply Hsel, word_column_head, Hlimit.
  - intros url body parser w self. rewrite uncommon_words_filter.
    apply Hsel. cbn. apply word_column_head, Hlimit.
  - intros Hthe i Hi. rewrite (Hflag _ _ Hi). f_equal.
    apply bool_decide_eq_true. right. exact Hthe.
  - intros _ Hlight i Hi. rewrite (Hflag _ _ Hi). f_equal.
    apply bool_decide_eq_false. intros [Hc | Hc]; apply Hlight; exact Hc.
Qed.

Lemma C4_common_iff_in_first_rows_witness :
  common_mask (head 2 light_table) ["The"; "light"] !! 0 = Some true
  ∧ common_mask (head 2 light_table) ["The"; "light"] !! 1 = Some false.
Proof.
  assert (Hlimit : (0 <= 2)%Z) by lia.
  pose proof (C4_common_iff_in_first_rows light_table 2 ["The"; "light"] Hlimit)
    as (_ & _ & _ & Hthe & Hlight).
  split.
  - apply Hthe; [|reflexivity].
    apply (bool_decide_unpack _). vm_compute. exact I.
  - apply Hlight; [| |reflexivity];
      apply (bool_decide_unpack _); vm_compute; exact I.
Defined.

(** ** Order and truncation *)

Lemma drop_duplicates_snoc (col : list string) (x : string) :
  drop_duplicates (col ++ [x]) =
  if decide (x ∈ col) then drop_duplicates col else drop_duplicates col ++ [x].
Proof.
  unfold drop_duplicates. rewrite drop_duplicates_from_snoc.
  case_decide as Hseen; case_decide as Hcol; try reflexivity; exfalso.
  - destruct Hseen as [Hnil | Hin]; [inversion Hnil | contradiction].
  - apply Hseen. right. assumption.
Qed.

Lemma drop_duplicates_elem (col : list string) (x : string) :
  x ∈ drop_duplicates col <-> x ∈ col.
Proof.
  unfold drop_duplicates. rewrite drop_duplicates_from_elem.
  split; [tauto|]. intros H. split; [assumption|]. intros H'. inversion H'.
Qed.

Lemma kept_sublist (deck : list Flashcard.t) :
  Deck.kept deck `sublist_of` deck.
Proof.
  unfold Deck.kept. induction deck as [|card deck IH]; cbn; [constructor|].
  case_bool_decide; cbn.
  - destruct (String.eqb _ _); cbn; [apply sublist_cons|apply sublist_skip];
      exact IH.
  - apply sublist_cons. exact IH.
Qed.

Lemma kept_clean (deck : list Flashcard.t) :
  Deck.kept deck = filter clean_card deck.
Proof.
  unfold Deck.kept. induction deck as [|card deck IH]; [reflexivity|].
  rewrite filter_cons, <- IH. cbn [List.filter]. unfold clean_card.
  case_bool_decide as Hd; cbn [List.filter].
  - destruct (String.eqb_spec (Flashcard.word card) "") as [Hw | Hw];
      cbn [negb]; case_decide as Hc; try tauto; reflexivity.
  - case_decide as Hc; [tauto|reflexivity].
Qed.

Lemma get_words_locals_words (self : Wiki2Anki.t) (st st' : state)
    (ws : list Word.t) :
  Wiki2Anki.get_words_locals self st = (Returned ws, st') ->
  Word.word <$> ws = Wiki2Anki.uncommon_words self.
Proof.
  unfold Wiki2Anki.get_words_locals. intros H.
  apply resolve_all_returned in H as [H _]. rewrite H.
  rewrite <- list_fmap_compose. apply list_fmap_id.
Qed.

Lemma from_word_words (ws : list Word.t) :
  Flashcard.word <$> (Flashcard.from_word <$> ws) = Word.word <$> ws.
Proof. rewrite <- list_fmap_compose. reflexivity. Qed.

(** C5. Deduplication keeps exactly the first occurrence of every string, in
    the order of those occurrences; truncation keeps a prefix; the frequency
    filter, the resolution loop and the two filters of [as_string] keep what
    they keep in order. Hence the words of the cards that [as_string] renders
    from the resolved words are the words of the page in their order, with
    entries removed only. *)
Theorem C5_order_preserved (self : Wiki2Anki.t) :
  let tokens := Page.get_words (Wiki2Anki.wiki self) (Wiki2Anki.cleaner self) in
  (forall col : list string,
      NoDup (drop_duplicates col)
      ∧ (forall x, x ∈ drop_duplicates col <-> x ∈ col)
      ∧ drop_duplicates col `sublist_of` col
      ∧ drop_duplicates [] = []
      ∧ (forall x, drop_duplicates (col ++ [x]) =
           if decide (x ∈ col) then drop_duplicates col
           else drop_duplicates col ++ [x]))
  ∧ head 100 (drop_duplicates tokens) `prefix_of` drop_duplicates tokens
  ∧ Wiki2Anki.uncommon_words self `sublist_of` head 100 (drop_duplicates tokens)
  ∧ (forall st ws st',
       Wiki2Anki.get_words_locals self st = (Returned ws, st') ->
       Word.word <$> ws = Wiki2Anki.uncommon_words self)
  ∧ (forall deck : list Flashcard.t, Deck.kept deck `sublist_of` deck)
  ∧ (forall st ws st',
       Wiki2Anki.get_words_locals self st = (Returned ws, st') ->
       Flashcard.word <$> Deck.kept (Flashcard.from_word <$> ws)
         `sublist_of` drop_duplicates tokens
       ∧ Flashcard.word <$> Deck.kept (Flashcard.from_word <$> ws)
         `sublist_of` tokens).
Proof.
  intros tokens.
  assert (Hsel : Wiki2Anki.uncommon_words self
                   `sublist_of` head 100 (drop_duplicates tokens)).
  { rewrite uncommon_words_filter. apply sublist_filter. }
  split; [|split; [|split; [|split; [|split]]]].
  - intros col. split; [apply drop_duplicates_from_NoDup|].
    split; [apply drop_duplicates_elem|].
    split; [apply drop_duplicates_from_sublist|].
    split; [reflexivity|]. apply drop_duplicates_snoc.
  - apply head_prefix.
  - exact Hsel.
  - intros st ws st'. apply get_words_locals_words.
  - apply kept_sublist.
  - intros st ws st' Hrun.
    assert (Hdedup : Flashcard.word <$> Deck.kept (Flashcard.from_word <$> ws)
                       `sublist_of` drop_duplicates tokens).
    { transitivity (Flashcard.word <$> (Flashcard.from_word <$> ws)).
      - apply fmap_sublist, kept_sublist.
      - rewrite from_word_words, (get_words_locals_words _ _ _ _ Hrun).
        transitivity (head 100 (drop_duplicates tokens)); [exact Hsel|].
        apply head_sublist. }
    split; [exact Hdedup|].
    transitivity (drop_duplicates tokens); [exact Hdedup|].
    apply drop_duplicates_from_sublist.
Qed.

Lemma C5_order_preserved_witness :
  Flashcard.word
    <$> Deck.kept
          (Flashcard.from_word
             <$> [ Word.mk "Fox" (Some "a wild canine"); Word.mk "jumps" None ])
    `sublist_of`
  Page.get_words (Wiki2Anki.wiki fox_run) (Wiki2Anki.cleaner fox_run).
Proof.
  pose proof (C5_order_preserved fox_run) as (_ & _ & _ & _ & _ & Hdeck).
  exact (proj2 (Hdeck initial _ _ eq_refl)).
Defined.

(** Truncating before filtering yields a prefix of the filtered list, for
    every cap; a cap of one keeps the first row or nothing. *)
Lemma remove_common_head (csv : FrequencyTable) (top n : Z) (df : list string) :
  Source.remove_common csv (head n df) top
    `prefix_of` Source.remove_common csv df top
  ∧ ((0 <= n)%Z ->
     length (Source.remove_common csv (head n df) top) <= Z.to_nat n)
  ∧ (forall x rest, df = x :: rest ->
     Source.remove_common csv (head 1 df) top =
     if decide (listed (word_column (head top csv)) x) then [] else [x]).
Proof.
  rewrite !remove_common_filter. split; [apply filter_head_prefix|]. split.
  - intros Hn. etransitivity; [apply length_filter|]. apply head_length, Hn.
  - intros x rest ->. change (head 1 (x :: rest)) with [x].
    rewrite filter_cons, filter_nil.
    repeat case_decide; try reflexivity; tauto.
Qed.

Lemma uncommon_words_length (self : Wiki2Anki.t) :
  length (Wiki2Anki.uncommon_words self) <= 100.
Proof.
  rewrite uncommon_words_filter.
  etransitivity; [apply length_filter|].
  apply (head_length 100). lia.
Qed.

(** C6. After deduplication the selection keeps the first [max_words] rows,
    in order and before the frequency filter and the resolution;
    [get_words] is the selection with [max_words] = 100, the literal of
    [df.head(100)]. The selected words are the unlisted ones among the rows
    kept, a prefix of the deduplicated and filtered list, at most
    [max_words], and so are the cards made from the resolved words. With
    [max_words] = 1 there is at most one selected word, and it is the first
    surviving candidate of the page. *)
Theorem C6_truncation_to_max_words (self : Wiki2Anki.t) (max_words : Z) :
  (0 <= max_words)%Z ->
  let tokens := Page.get_words (Wiki2Anki.wiki self) (Wiki2Anki.cleaner self) in
  let deduplicated := drop_duplicates tokens in
  let unlisted := fun w => ¬ listed (word_column (Wiki2Anki.common self)) w in
  let truncated := head max_words deduplicated in
  let selected := select_words max_words (Wiki2Anki.common self) tokens in
  Wiki2Anki.uncommon_words self = select_words 100 (Wiki2Anki.common self) tokens
  ∧ truncated `prefix_of` deduplicated
  ∧ length truncated <= Z.to_nat max_words
  ∧ selected = filter unlisted truncated
  ∧ selected `prefix_of` filter unlisted deduplicated
  ∧ length selected <= Z.to_nat max_words
  ∧ (forall st ws st',
       resolve_all (Wiki2Anki.definer self) (Word.new <$> selected) st
       = (Returned ws, st') ->
       Word.word <$> ws = selected
       ∧ length (Deck.kept (Flashcard.from_word <$> ws)) <= Z.to_nat max_words)
  ∧ (max_words = 1%Z -> forall w, w ∈ selected ->
       selected = [w]
       ∧ exists rest, filter unlisted deduplicated = w :: rest)
  ∧ (forall st ws st',
       Wiki2Anki.get_words_locals self st = (Returned ws, st') ->
       length ws <= 100
       ∧ length (Deck.kept (Flashcard.from_word <$> ws)) <= 100).
Proof.
  intros Hcap tokens deduplicated unlisted truncated selected.
  assert (Hsel : selected = filter unlisted truncated).
  { apply boolean_index_common_mask. }
  assert (Hprefix : selected `prefix_of` filter unlisted deduplicated).
  { rewrite Hsel. apply filter_head_prefix. }
  assert (Hlen : length selected <= Z.to_nat max_words).
  { rewrite Hsel. etransitivity; [apply length_filter|].
    apply head_length, Hcap. }
  split; [reflexivity|].
  split; [apply head_prefix|].
  split; [apply head_length, Hcap|].
  split; [exact Hsel|].
  split; [exact Hprefix|].
  split; [exact Hlen|].
  split.
  { intros st ws st' Hrun.
    apply resolve_all_returned in Hrun as [Hws _].
    assert (Hwords : Word.word <$> ws = selected).
    { rewrite Hws, <- list_fmap_compose. apply list_fmap_id. }
    split; [exact Hwords|].
    etransitivity; [apply sublist_length, kept_sublist|].
    rewrite length_fmap, <- (length_fmap Word.word), Hwords. exact Hlen. }
  split.
  { intros -> w Hw. destruct Hprefix as [rest Hrest].
    destruct selected as [|x [|y more]].
    - inversion Hw.
    - apply list_elem_of_singleton in Hw as ->.
      split; [reflexivity|]. exists rest. exact Hrest.
    - cbn in Hlen. lia. }
  intros st ws st' Hrun.
  pose proof (get_words_locals_words _ _ _ _ Hrun) as Hws.
  assert (Hn : length ws <= 100).
  { rewrite <- (length_fmap Word.word), Hws. apply uncommon_words_length. }
  split; [exact Hn|].
  etransitivity; [apply sublist_length, kept_sublist|].
  rewrite length_fmap. exact Hn.
Qed.

Lemma C6_truncation_to_max_words_witness :
  select_words 1 (Wiki2Anki.common leading_space_run)
    (Page.get_words (Wiki2Anki.wiki leading_space_run)
       (Wiki2Anki.cleaner leading_space_run))
  = [""]
  ∧ exists rest,
      filter (fun w => ¬ listed (word_column (Wiki2Anki.common leading_space_run)) w)
        (drop_duplicates
           (Page.get_words (Wiki2Anki.wiki leading_space_run)
              (Wiki2Anki.cleaner leading_space_run)))
      = "" :: rest.
Proof.
  assert (Hcap : (0 <= 1)%Z) by lia.
  pose proof (C6_truncation_to_max_words leading_space_run 1 Hcap)
    as (_ & _ & _ & _ & _ & _ & _ & Hone & _).
  apply (Hone eq_refl "").
  apply (bool_decide_unpack _). vm_compute. exact I.
Defined.

(** ** Tokenizer *)

Lemma weave_tokens (p : ascii -> bool) (toks seps : list string) :
  length toks = S (length seps) ->
  string_exists p (weave toks seps) = false ->
  Forall (fun tok => string_exists p tok = false) toks.
Proof.
  revert seps. induction toks as [|t toks IH]; intros seps Hlen Hw.
  - constructor.
  - destruct seps as [|sep seps]; cbn [weave] in Hw.
    + destruct toks; [|discriminate Hlen]. repeat constructor. exact Hw.
    + rewrite !string_exists_app in Hw.
      apply orb_false_iff in Hw as [Ht Hw].
      apply orb_false_iff in Hw as [_ Hw].
      constructor; [exact Ht|].
      apply (IH seps); [cbn in Hlen; lia|exact Hw].
Qed.

Lemma string_exists_ext (p q : ascii -> bool) (s : string) :
  (forall c, p c = q c) -> string_exists p s = string_exists q s.
Proof.
  intros H. induction s as [|c s IH]; [reflexivity|]. cbn.
  rewrite H, IH. reflexivity.
Qed.

Lemma string_filter_kept (p : ascii -> bool) (s : string) :
  string_exists (fun c => negb (p c)) (string_filter p s) = false.
Proof.
  induction s as [|c s IH]; [reflexivity|]. cbn.
  destruct (p c) eqn:E; [|exact IH]. cbn. rewrite E, IH. reflexivity.
Qed.

Lemma remove_punctuation_kept (s : string) :
  remove_punctuation s
  = string_filter (fun c => isalnum c || is_code 95 c || isspace c) s.
Proof.
  unfold remove_punctuation. apply string_filter_ext.
  intros c. unfold NON_ALNUM, isword. apply negb_involutive.
Qed.

(** C7. The claim removes every character that is not alphanumeric or
    whitespace; the code keeps the underscore, which is neither: the pattern
    named [NON_ALNUM] is [[^\w\s]], and [\w] matches the underscore, although
    [remove_punctuation] is documented to remove all punctuation. On the text
    [a_b] the code gives the token [a_b], and the tokenizer of the claim the
    token [ab]. *)
Theorem C7_underscore_is_kept :
  isalnum "_" = false
  ∧ isspace "_" = false
  ∧ NON_ALNUM "_" = false
  ∧ remove_punctuation "a_b" = "a_b"
  ∧ clean BasicEnglishCleaner.mk "a_b" = ["a_b"]
  ∧ tokenize_spec "a_b" = ["ab"].
Proof. repeat split; vm_compute; reflexivity. Qed.

(** What [clean] does. It removes every character that is not alphanumeric,
    an underscore or whitespace, and splits the rest on runs of whitespace:
    the rest is the tokens with non-empty runs of whitespace between them, no
    token holds whitespace or a removed character, only the first and the
    last token can be empty, and they are empty when the rest starts or ends
    with whitespace. For a string without any character that the pattern
    removes, [clean] is the whitespace split of the string itself. *)
Lemma clean_characterised (s : string) :
  let kept := fun c => isalnum c || is_code 95 c || isspace c in
  let tokens := clean BasicEnglishCleaner.mk s in
  tokens = split_by_whitespace (string_filter kept s)
  ∧ (exists seps,
       length tokens = S (length seps)
       ∧ Forall whitespace_run seps
       ∧ weave tokens seps = string_filter kept s)
  ∧ Forall (fun tok => string_exists isspace tok = false) tokens
  ∧ Forall (fun tok => string_exists NON_ALNUM tok = false) tokens
  ∧ (forall i, 0 < i -> S i < length tokens -> tokens !! i ≠ Some "")
  ∧ (forall c, first_char (string_filter kept s) = Some c -> isspace c = true ->
       tokens !! 0 = Some "")
  ∧ (forall c, last_char (string_filter kept s) = Some c -> isspace c = true ->
       last tokens = Some "")
  ∧ (string_exists NON_ALNUM s = false -> tokens = split_by_whitespace s).
Proof.
  intros kept tokens.
  assert (Htok : tokens = split_by_whitespace (string_filter kept s)).
  { unfold tokens, clean, BasicEnglishCleaner_Cleaner, BasicEnglishCleaner.clean.
    rewrite remove_punctuation_kept. reflexivity. }
  rewrite Htok.
  split; [reflexivity|].
  split; [apply split_weave|].
  split; [apply split_tokens_no_space|].
  split.
  { destruct (split_weave (string_filter kept s)) as (seps & Hlen & _ & Hw).
    apply (weave_tokens NON_ALNUM _ seps Hlen). rewrite Hw.
    rewrite <- (string_filter_kept kept s). f_equal. }
  split; [intros i; apply split_inner_tokens|].
  split.
  { intros c Hfirst Hc. destruct (string_filter kept s) as [|c' s']; [discriminate|].
    injection Hfirst as ->. destruct (split_leading_space c s' Hc) as [rest ->].
    reflexivity. }
  split; [intros c; apply split_trailing_space|].
  intros Hclean. f_equal. rewrite <- remove_punctuation_kept.
  apply string_filter_all.
  rewrite <- Hclean. apply string_exists_ext.
  intros c. apply negb_involutive.
Qed.

(** ** Formatter *)

Lemma kept_render (deck : list Flashcard.t) :
  Flashcard.get_flashcard <$> Deck.kept deck = omap render_entry deck.
Proof.
  unfold Deck.kept. induction deck as [|card deck IH]; [reflexivity|].
  cbn [List.filter omap list_omap]. unfold render_entry at 1.
  destruct (Flashcard.definition card) as [d|] eqn:Ed.
  - rewrite bool_decide_true by discriminate. cbn [List.filter].
    destruct (String.eqb (Flashcard.word card) ""); cbn [negb]; [exact IH|].
    cbn [List.filter negb fmap list_fmap]. fold (@fmap list _).
    unfold Flashcard.get_flashcard at 1. rewrite Ed. cbn [format_value].
    f_equal. exact IH.
  - rewrite bool_decide_false by (intros H; apply H; reflexivity). exact IH.
Qed.

Lemma kept_elem (deck : list Flashcard.t) (card : Flashcard.t) :
  card ∈ Deck.kept deck <-> card ∈ deck ∧ clean_card card.
Proof. rewrite kept_clean, list_elem_of_filter. tauto. Qed.

Lemma kept_all (deck : list Flashcard.t) :
  Forall clean_card deck -> Deck.kept deck = deck.
Proof.
  rewrite kept_clean. induction 1 as [|card deck Hc _ IH]; [reflexivity|].
  rewrite filter_cons_True by assumption. rewrite IH. reflexivity.
Qed.

Lemma kept_is_clean (deck : list Flashcard.t) : Forall clean_card (Deck.kept deck).
Proof. apply Forall_forall. intros card H. apply kept_elem in H. tauto. Qed.

(** C8. [as_string] drops the entries without a definition, then those with
    an empty word, renders each remaining entry as the word, a semicolon and
    a space, and the definition in double quotes, and joins the lines with
    line breaks: it is the formatter of the specification. A list in which
    every entry has a definition and a non-empty word loses nothing, and
    formatting what was kept gives the same string again. *)
Theorem C8_as_string_is_format (deck : list Flashcard.t) :
  Deck.as_string deck = format_spec deck
  ∧ Deck.kept deck = filter clean_card deck
  ∧ (forall card,
       card ∈ Deck.kept deck
       <-> card ∈ deck ∧ Flashcard.definition card ≠ None
           ∧ Flashcard.word card ≠ "")
  ∧ (Forall clean_card deck ->
       Deck.kept deck = deck
       ∧ Deck.as_string deck = join newline (Flashcard.get_flashcard <$> deck))
  ∧ Deck.kept (Deck.kept deck) = Deck.kept deck
  ∧ Deck.as_string (Deck.kept deck) = Deck.as_string deck.
Proof.
  split; [unfold Deck.as_string, format_spec; rewrite kept_render; reflexivity|].
  split; [apply kept_clean|].
  split; [intros card; rewrite kept_elem; unfold clean_card; tauto|].
  split.
  - intros Hclean. unfold Deck.as_string. rewrite (kept_all _ Hclean). tauto.
  - pose proof (kept_all _ (kept_is_clean deck)) as Hidem.
    split; [exact Hidem|]. unfold Deck.as_string. rewrite Hidem. reflexivity.
Qed.

Lemma C8_as_string_is_format_witness :
  Deck.kept [ Flashcard.mk "Fox" (Some "a wild canine") ]
  = [ Flashcard.mk "Fox" (Some "a wild canine") ]
  ∧ Deck.as_string [ Flashcard.mk "Fox" (Some "a wild canine") ]
    = join newline
        (Flashcard.get_flashcard <$> [ Flashcard.mk "Fox" (Some "a wild canine") ]).
Proof.
  pose proof (C8_as_string_is_format [ Flashcard.mk "Fox" (Some "a wild canine") ])
    as (_ & _ & _ & Hclean & _).
  apply Hclean. repeat constructor; discriminate.
Defined.

Lemma join_cons2 (sep x y : string) (rest : list string) :
  join sep (x :: y :: rest) = x +:+ sep +:+ join sep (y :: rest).
Proof. reflexivity. Qed.

Lemma last_char_some_nonempty (s : string) (c : ascii) :
  last_char s = Some c -> s ≠ "".
Proof. intros H ->. discriminate H. Qed.

Lemma last_char_join (sep : string) (items : list string) (c : ascii) :
  items ≠ [] -> Forall (fun x => last_char x = Some c) items ->
  last_char (join sep items) = Some c.
Proof.
  intros Hne Hall. induction Hall as [|x items Hx Hall IH]; [contradiction|].
  destruct items as [|y rest]; [exact Hx|].
  rewrite join_cons2. specialize (IH ltac:(discriminate)).
  pose proof (last_char_some_nonempty _ _ IH) as Hj.
  rewrite last_char_app.
  - rewrite last_char_app; assumption.
  - destruct sep; [rewrite append_nil_l; assumption|discriminate].
Qed.

Lemma count_newlines_join (items : list string) :
  Forall (fun x => string_exists is_newline x = false) items ->
  count_newlines (join newline items) = length items - 1.
Proof.
  induction 1 as [|x items Hx Hall IH]; [reflexivity|].
  destruct items as [|y rest]; [cbn; apply count_newlines_none, Hx|].
  rewrite join_cons2, !count_newlines_app, IH, (count_newlines_none _ Hx).
  change (count_newlines newline) with 1. cbn [length]. lia.
Qed.

Lemma append_nonempty_r (a b : string) : b ≠ "" -> a +:+ b ≠ "".
Proof.
  intros Hb. destruct a; [rewrite append_nil_l; exact Hb|].
  rewrite append_cons. discriminate.
Qed.

Lemma get_flashcard_last (card : Flashcard.t) :
  last_char (Flashcard.get_flashcard card) = Some (ascii_of_N 34).
Proof.
  assert (Hq : dquote ≠ "") by (unfold dquote; discriminate).
  unfold Flashcard.get_flashcard.
  rewrite !last_char_app by (repeat apply append_nonempty_r; exact Hq).
  reflexivity.
Qed.

Lemma get_flashcard_single_line (card : Flashcard.t) :
  single_line card ->
  string_exists is_newline (Flashcard.get_flashcard card) = false.
Proof.
  intros [Hw Hd]. unfold Flashcard.get_flashcard.
  rewrite !string_exists_app, Hw, Hd. reflexivity.
Qed.

(** C10, as stated, fails: a definition that holds a line break makes its
    card span two lines. *)
Lemma C10_counterexample_two_lines :
  length (Deck.kept two_line_deck) = 1
  ∧ count_lines (Deck.as_string two_line_deck) = 2
  ∧ count_lines (Deck.as_string two_line_deck) ≠ length (Deck.kept two_line_deck).
Proof. repeat split; try (vm_compute; reflexivity). vm_compute. discriminate. Qed.

(** C10, amended. An empty deck, or a deck in which every entry lacks a
    definition or has an empty word, is formatted as the empty string; the
    output is empty exactly when nothing is kept; when something is kept the
    output ends with the closing double quote of the last card, so it never
    ends with a line break; and when no kept word or definition holds a line
    break itself, the output has exactly one line for each kept entry. *)
Theorem C10_as_string_lines (deck : list Flashcard.t) :
  Deck.as_string [] = ""
  ∧ (Forall (fun card => Flashcard.definition card = None
                         ∨ Flashcard.word card = "") deck ->
       Deck.kept deck = [] ∧ Deck.as_string deck = "")
  ∧ (Deck.as_string deck = "" <-> Deck.kept deck = [])
  ∧ (Deck.kept deck ≠ [] -> last_char (Deck.as_string deck) = Some (ascii_of_N 34))
  ∧ last_char (Deck.as_string deck) ≠ Some (ascii_of_N 10)
  ∧ (Forall single_line (Deck.kept deck) ->
       count_lines (Deck.as_string deck) = length (Deck.kept deck)).
Proof.
  assert (Hlast : Deck.kept deck ≠ [] ->
                  last_char (Deck.as_string deck) = Some (ascii_of_N 34)).
  { intros Hne. unfold Deck.as_string. apply last_char_join.
    - destruct (Deck.kept deck); [contradiction|discriminate].
    - apply Forall_fmap, Forall_forall. intros card _. apply get_flashcard_last. }
  assert (Hempty : Deck.as_string deck = "" <-> Deck.kept deck = []).
  { split.
    - intros Hs. destruct (Deck.kept deck) as [|card rest] eqn:E; [reflexivity|].
      rewrite Hs in Hlast. discriminate Hlast. discriminate.
    - intros Hk. unfold Deck.as_string. rewrite Hk. reflexivity. }
  split; [reflexivity|].
  split.
  { intros Hall.
    assert (Hk : Deck.kept deck = []).
    { destruct (Deck.kept deck) as [|card rest] eqn:E; [reflexivity|].
      assert (Hin : card ∈ Deck.kept deck) by (rewrite E; left).
      apply kept_elem in Hin as [Hin [Hd Hw]].
      rewrite Forall_forall in Hall. destruct (Hall _ Hin); contradiction. }
    split; [exact Hk|]. apply Hempty, Hk. }
  split; [exact Hempty|].
  split; [exact Hlast|].
  split.
  { destruct (Deck.kept deck) as [|card rest] eqn:E.
    - rewrite (proj2 Hempty) by reflexivity. discriminate.
    - rewrite Hlast by discriminate. discriminate. }
  intros Hlines.
  destruct (Deck.kept deck) as [|card rest] eqn:E.
  - rewrite (proj2 Hempty) by reflexivity. reflexivity.
  - pose proof (Hlast ltac:(discriminate)) as Hq.
    apply last_char_some_nonempty in Hq.
    unfold count_lines. destruct (Deck.as_string deck) eqn:Es; [contradiction|].
    rewrite <- Es. unfold Deck.as_string. rewrite E.
    rewrite count_newlines_join.
    + rewrite length_fmap. cbn. lia.
    + apply Forall_fmap. eapply Forall_impl; [exact Hlines|].
      intros c Hc. apply get_flashcard_single_line, Hc.
Qed.

Lemma C10_as_string_lines_witness :
  count_lines
    (Deck.as_string [ Flashcard.mk "Fox" (Some "a wild canine");
                      Flashcard.mk "" (Some "nothing");
                      Flashcard.mk "cub" (Some "a young fox") ])
  = length (Deck.kept [ Flashcard.mk "Fox" (Some "a wild canine");
                        Flashcard.mk "" (Some "nothing");
                        Flashcard.mk "cub" (Some "a young fox") ]).
Proof.
  pose proof (C10_as_string_lines
                [ Flashcard.mk "Fox" (Some "a wild canine");
                  Flashcard.mk "" (Some "nothing");
                  Flashcard.mk "cub" (Some "a young fox") ])
    as (_ & _ & _ & _ & _ & Hlines).
  apply Hlines. vm_compute. repeat constructor.
Defined.

(** ** The empty token *)

Lemma clean_leading_space (c : ascii) (s : string) :
  isspace c = true ->
  exists rest, clean BasicEnglishCleaner.mk (String c s) = "" :: rest.
Proof.
  intros Hc.
  unfold clean, BasicEnglishCleaner_Cleaner, BasicEnglishCleaner.clean,
    remove_punctuation.
  cbn [string_filter]. unfold NON_ALNUM at 1. rewrite Hc, orb_true_r.
  cbn [negb]. apply split_leading_space, Hc.
Qed.

Lemma lower_empty : lower "" = "".
Proof. reflexivity. Qed.

Lemma empty_unlisted (values : list string) :
  "" ∉ values -> ¬ listed values "".
Proof. unfold listed. rewrite lower_empty. tauto. Qed.

(** * Further properties of the code *)

(** ** Tokenizer round trips *)

Lemma isword_not_space (c : ascii) : isword c = true -> isspace c = false.
Proof.
  destruct c as [[] [] [] [] [] [] [] []]; vm_compute; congruence.
Qed.

Lemma string_filter_app (p : ascii -> bool) (a b : string) :
  string_filter p (a +:+ b) = string_filter p a +:+ string_filter p b.
Proof.
  induction a as [|c a IH]; [reflexivity|].
  rewrite append_cons. cbn [string_filter].
  destruct (p c); rewrite IH; reflexivity.
Qed.

Lemma string_filter_filter (p q : ascii -> bool) (s : string) :
  string_filter p (string_filter q s) = string_filter (fun c => q c && p c) s.
Proof.
  induction s as [|c s IH]; [reflexivity|]. cbn [string_filter].
  destruct (q c); cbn [string_filter andb]; rewrite IH; reflexivity.
Qed.

Lemma split_no_space (s : string) :
  string_exists isspace s = false -> split_by_whitespace s = [s].
Proof.
  induction s as [|c s IH]; [reflexivity|]. cbn [string_exists].
  intros [Hc Hs]%orb_false_iff.
  destruct (split_char c s Hc) as (tok & toks & E & ->).
  rewrite (IH Hs) in E. injection E as <- <-. reflexivity.
Qed.

(** A prefix without whitespace joins the first token of the rest. *)
Lemma split_token_prefix (t s : string) :
  string_exists isspace t = false ->
  exists x xs,
    split_by_whitespace s = x :: xs
    ∧ split_by_whitespace (t +:+ s) = (t +:+ x) :: xs.
Proof.
  induction t as [|c t IH].
  - intros _. destruct (split_by_whitespace s) as [|x xs] eqn:E.
    + destruct (split_nonempty s E).
    + exists x, xs. split; [reflexivity|]. rewrite !append_nil_l. exact E.
  - cbn [string_exists]. intros [Hc Ht]%orb_false_iff.
    destruct (IH Ht) as (x & xs & Es & Ets).
    destruct (split_char c (t +:+ s) Hc) as (tok & toks & E & E').
    rewrite Ets in E. injection E as <- <-.
    exists x, xs. split; [exact Es|]. rewrite append_cons. exact E'.
Qed.

(** A run of whitespace before a text that does not start with whitespace
    leaves one empty token in front. *)
Lemma split_run_prefix (sep rest : string) :
  whitespace_run sep ->
  (forall c, first_char rest = Some c -> isspace c = false) ->
  split_by_whitespace (sep +:+ rest) = "" :: split_by_whitespace rest.
Proof.
  intros [Hne Hall] Hrest. induction sep as [|c sep IH]; [contradiction|].
  cbn [string_exists] in Hall. apply orb_false_iff in Hall as [Hc Hall].
  apply negb_false_iff in Hc. rewrite append_cons.
  destruct sep as [|c' sep].
  - rewrite append_nil_l. apply split_space_last; assumption.
  - assert (Hc' : isspace c' = true).
    { cbn [string_exists] in Hall. apply orb_false_iff in Hall as [Hc' _].
      apply negb_false_iff in Hc'. exact Hc'. }
    rewrite append_cons, split_space_run by assumption.
    rewrite <- append_cons. apply IH; [discriminate|exact Hall].
Qed.

Lemma first_char_app_nonempty (a b : string) :
  a ≠ "" -> first_char (a +:+ b) = first_char a.
Proof. destruct a; [contradiction|reflexivity]. Qed.

Lemma first_char_no_space (t : string) (c : ascii) :
  string_exists isspace t = false -> first_char t = Some c -> isspace c = false.
Proof.
  destruct t as [|c' t]; [discriminate|]. cbn.
  intros [Hc _]%orb_false_iff [= <-]. exact Hc.
Qed.

(** X1. Splitting is the inverse of weaving: when tokens without whitespace,
    of which only the first and the last may be empty, are put together with
    non-empty runs of whitespace between them, [split_by_whitespace] (and
    [get_words] of [source.py], the same call) gives back exactly the
    tokens. *)
Theorem X1_split_weave_round_trip (toks seps : list string) :
  length toks = S (length seps) ->
  Forall whitespace_run seps ->
  Forall (fun tok => string_exists isspace tok = false) toks ->
  (forall i, 0 < i -> S i < length toks -> toks !! i ≠ Some "") ->
  split_by_whitespace (weave toks seps) = toks.
Proof.
  revert seps. induction toks as [|t toks IH]; intros seps Hlen Hseps Htoks Hinner.
  - discriminate Hlen.
  - inversion Htoks as [|? ? Ht Htoks']; subst.
    destruct seps as [|sep seps].
    + destruct toks; [|discriminate Hlen]. cbn [weave].
      apply split_no_space, Ht.
    + inversion Hseps as [|? ? Hsep Hseps']; subst. cbn [weave].
      assert (Hrest : split_by_whitespace (weave toks seps) = toks).
      { apply IH; [cbn in Hlen; lia|assumption..|].
        intros i Hi Hi'. apply (Hinner (S i)); [lia|cbn [length]; lia]. }
      assert (Hstart : forall c, first_char (weave toks seps) = Some c ->
                                 isspace c = false).
      { destruct toks as [|t' toks']; [discriminate Hlen|].
        inversion Htoks' as [|? ? Ht' _]; subst.
        destruct (decide (t' = "")) as [-> | Hne].
        - destruct toks' as [|t'' toks''].
          + destruct seps; [|discriminate Hlen]. discriminate.
          + exfalso. apply (Hinner 1); [lia|cbn [length]; lia|reflexivity].
        - intros c. destruct seps as [|sep' seps']; cbn [weave].
          + apply first_char_no_space, Ht'.
          + rewrite first_char_app_nonempty by exact Hne.
            apply first_char_no_space, Ht'. }
      destruct (split_token_prefix t (sep +:+ weave toks seps) Ht)
        as (x & xs & Ex & ->).
      rewrite (split_run_prefix _ _ Hsep Hstart), Hrest in Ex.
      injection Ex as <- <-. rewrite string_app_empty_r. reflexivity.
Qed.

Lemma X1_split_weave_round_trip_witness :
  split_by_whitespace (weave [""; "red"; "fox"; ""] [" "; "  "; newline])
  = [""; "red"; "fox"; ""].
Proof.
  apply X1_split_weave_round_trip.
  - reflexivity.
  - repeat constructor; discriminate.
  - repeat constructor.
  - intros [|[|[|i]]] Hi Hlen; cbn in *; try lia; discriminate.
Defined.

Lemma string_exists_impl (p q : ascii -> bool) (s : string) :
  (forall c, q c = true -> p c = true) ->
  string_exists p s = false -> string_exists q s = false.
Proof.
  intros Himp. induction s as [|c s IH]; [reflexivity|]. cbn.
  intros [Hc Hs]%orb_false_iff. rewrite (IH Hs), orb_false_r.
  destruct (q c) eqn:E; [|reflexivity]. rewrite (Himp c E) in Hc. discriminate.
Qed.

(** A string of word characters is left alone by [remove_punctuation] and
    holds no whitespace. *)
Lemma remove_punctuation_word (w : string) :
  string_exists (fun c => negb (isword c)) w = false ->
  remove_punctuation w = w.
Proof.
  intros Hw. apply string_filter_all.
  revert Hw. apply string_exists_impl. intros c.
  unfold NON_ALNUM. rewrite negb_involutive.
  destruct (isword c); [discriminate|reflexivity].
Qed.

Lemma word_no_space (w : string) :
  string_exists (fun c => negb (isword c)) w = false ->
  string_exists isspace w = false.
Proof.
  apply string_exists_impl. intros c Hc.
  destruct (isword c) eqn:E; [|reflexivity].
  rewrite (isword_not_space c E) in Hc. discriminate.
Qed.

Lemma clean_unfold (s : string) :
  clean BasicEnglishCleaner.mk s = split_by_whitespace (remove_punctuation s).
Proof. reflexivity. Qed.

(** X2. Words survive the round trip through a text: for a non-empty list of
    non-empty words made of word characters (alphanumeric or underscore),
    cleaning the words joined by single spaces gives back the list. *)
Theorem X2_clean_join_round_trip (words : list string) :
  words ≠ [] ->
  Forall (fun w => w ≠ "" ∧ string_exists (fun c => negb (isword c)) w = false)
    words ->
  clean BasicEnglishCleaner.mk (join " " words) = words.
Proof.
  intros Hne Hall. rewrite clean_unfold.
  induction Hall as [|w words [Hw Hchars] Hall IH]; [contradiction|].
  destruct words as [|w' words'].
  - cbn [join]. rewrite (remove_punctuation_word _ Hchars).
    apply split_no_space, word_no_space, Hchars.
  - specialize (IH ltac:(discriminate)).
    inversion Hall as [|? ? [Hw' _] _]; subst.
    rewrite join_cons2. unfold remove_punctuation in *.
    rewrite !string_filter_app.
    fold (remove_punctuation w). rewrite (remove_punctuation_word _ Hchars).
    change (string_filter (fun c => negb (NON_ALNUM c)) " ") with " ".
    set (rest := string_filter (fun c => negb (NON_ALNUM c))
                   (join " " (w' :: words'))) in *.
    assert (Hstart : forall c, first_char rest = Some c -> isspace c = false).
    { intros c Hc. destruct rest as [|c' r]; [discriminate|].
      injection Hc as ->. destruct (isspace c) eqn:E; [|reflexivity].
      destruct (split_leading_space c r E) as [toks Htoks].
      rewrite Htoks in IH. injection IH as <- _. contradiction. }
    assert (Hrun : whitespace_run " ") by (split; [discriminate|reflexivity]).
    destruct (split_token_prefix w (" " +:+ rest) (word_no_space _ Hchars))
      as (x & xs & Ex & ->).
    rewrite (split_run_prefix _ _ Hrun Hstart), IH in Ex.
    injection Ex as <- <-. rewrite string_app_empty_r. reflexivity.
Qed.

Lemma X2_clean_join_round_trip_witness :
  clean BasicEnglishCleaner.mk (join " " ["red"; "tailed_2"; "Fox"])
  = ["red"; "tailed_2"; "Fox"].
Proof.
  apply X2_clean_join_round_trip; [discriminate|].
  repeat constructor; discriminate.
Defined.

Lemma concat_all_split (s : string) :
  concat_all (split_by_whitespace s)
  = string_filter (fun c => negb (isspace c)) s.
Proof.
  induction s as [|c s IH]; [reflexivity|].
  cbn [string_filter]. destruct (isspace c) eqn:Hc; cbn [negb].
  - destruct s as [|c' s].
    + rewrite (split_space_last c); [reflexivity|assumption|intros ? [=]].
    + destruct (isspace c') eqn:Hc'.
      * rewrite split_space_run by assumption. exact IH.
      * rewrite (split_space_last c);
          [|assumption|intros ? [= <-]; assumption].
        unfold concat_all in *. cbn [foldr]. rewrite append_nil_l. exact IH.
  - destruct (split_char c s Hc) as (tok & toks & E & ->).
    rewrite E in IH. unfold concat_all in *. cbn [foldr] in *.
    rewrite append_cons, IH. reflexivity.
Qed.

Lemma concat_all_clean (s : string) :
  concat_all (clean BasicEnglishCleaner.mk s) = string_filter isword s.
Proof.
  rewrite clean_unfold, concat_all_split. unfold remove_punctuation.
  rewrite string_filter_filter. apply string_filter_ext.
  intros c. unfold NON_ALNUM. rewrite negb_involutive.
  destruct (isword c) eqn:E; cbn.
  - rewrite (isword_not_space c E). reflexivity.
  - destruct (isspace c); reflexivity.
Qed.

Lemma concat_all_exists (p : ascii -> bool) (items : list string) :
  string_exists p (concat_all items) = false ->
  Forall (fun x => string_exists p x = false) items.
Proof.
  induction items as [|x items IH]; [constructor|].
  unfold concat_all in *. cbn [foldr]. rewrite string_exists_app.
  intros [Hx Hrest]%orb_false_iff. constructor; [exact Hx|apply IH, Hrest].
Qed.

(** X3. The tokens of [clean], put one after the other, are exactly the word
    characters of the text in their order: cleaning loses whitespace and the
    characters the pattern removes, and nothing else; it adds and moves
    nothing; so every token is made of word characters only. *)
Theorem X3_clean_keeps_word_characters (s : string) :
  concat_all (clean BasicEnglishCleaner.mk s) = string_filter isword s
  ∧ Forall (fun tok => string_exists (fun c => negb (isword c)) tok = false)
      (clean BasicEnglishCleaner.mk s).
Proof.
  split; [apply concat_all_clean|].
  apply concat_all_exists. rewrite concat_all_clean.
  apply (string_filter_kept isword).
Qed.

Lemma clean_tokens_word_chars (s : string) :
  Forall (fun tok => string_exists (fun c => negb (isword c)) tok = false)
    (clean BasicEnglishCleaner.mk s).
Proof.
  apply concat_all_exists.
  rewrite clean_unfold, concat_all_split. unfold remove_punctuation.
  rewrite string_filter_filter.
  erewrite string_filter_ext; [apply (string_filter_kept isword)|].
  intros c. unfold NON_ALNUM. rewrite negb_involutive.
  destruct (isword c) eqn:E; cbn.
  - rewrite (isword_not_space c E). reflexivity.
  - destruct (isspace c); reflexivity.
Qed.

(** X4. Cleaning is stable: a token that [clean] produced is cleaned to
    itself, as the only token, and removing punctuation twice is removing it
    once. *)
Theorem X4_clean_token_fixed (s tok : string) :
  tok ∈ clean BasicEnglishCleaner.mk s ->
  clean BasicEnglishCleaner.mk tok = [tok]
  ∧ remove_punctuation tok = tok
  ∧ remove_punctuation (remove_punctuation s) = remove_punctuation s.
Proof.
  intros Hin.
  pose proof (clean_tokens_word_chars s) as Hall.
  rewrite Forall_forall in Hall. specialize (Hall tok Hin).
  pose proof (remove_punctuation_word tok Hall) as Hsame.
  split; [|split; [exact Hsame|]].
  - rewrite clean_unfold, Hsame. apply split_no_space, word_no_space, Hall.
  - unfold remove_punctuation. rewrite string_filter_filter.
    apply string_filter_ext. intros c. apply andb_diag.
Qed.

Lemma X4_clean_token_fixed_witness :
  clean BasicEnglishCleaner.mk "Fox" = ["Fox"]
  ∧ remove_punctuation "Fox" = "Fox"
  ∧ remove_punctuation (remove_punctuation fox_text) = remove_punctuation fox_text.
Proof.
  apply (X4_clean_token_fixed fox_text "Fox").
  apply (bool_decide_unpack _). vm_compute. exact I.
Defined.

(** ** Indices, effects and independence of the definer *)

Lemma py_index_in_range {A : Type} (l : list A) (i : Z) :
  is_Some (py_index l i) <-> in_range l i.
Proof.
  unfold py_index, in_range.
  destruct (Z.leb_spec 0 i) as [Hi | Hi].
  - rewrite lookup_lt_is_Some. lia.
  - destruct (Z.leb_spec (- Z.of_nat (length l)) i) as [Hlo | Hlo].
    + rewrite lookup_lt_is_Some. lia.
    + split; [intros [x Hx]; discriminate|lia].
Qed.

Lemma py_index_out_of_range {A : Type} (l : list A) (i : Z) :
  ¬ in_range l i -> py_index l i = None.
Proof.
  intros Hout. destruct (py_index l i) eqn:E; [|reflexivity].
  exfalso. apply Hout, py_index_in_range. eauto.
Qed.

Lemma py_index_negative {A : Type} (l : list A) (i : Z) :
  in_range l i -> (i < 0)%Z ->
  py_index l i = py_index l (Z.of_nat (length l) + i).
Proof.
  unfold py_index, in_range. intros [Hlo Hhi] Hneg.
  destruct (Z.leb_spec 0 i) as [Hi | _]; [lia|].
  destruct (Z.leb_spec (- Z.of_nat (length l)) i) as [_ | Hlo']; [|lia].
  destruct (Z.leb_spec 0 (Z.of_nat (length l) + i)) as [_ | Hi']; [|lia].
  reflexivity.
Qed.

Lemma get_definition_general (self : WiktionaryDefiner.t) (word : string)
    (entry_n definition_n : Z) (st : state) :
  let fetched := WiktionaryDefiner.parser self word (WiktionaryDefiner.language self) in
  let looked :=
    {| entry := Some fetched;
       requests := requests st ++ [(word, WiktionaryDefiner.language self)];
       stdout := stdout st |} in
  let told line :=
    {| entry := Some fetched;
       requests := requests st ++ [(word, WiktionaryDefiner.language self)];
       stdout := stdout st ++ [line] |} in
  WiktionaryDefiner.get_definition self word entry_n definition_n st =
  match fetched with
  | [] =>
      (Returned None,
       told ("No " +:+ WiktionaryDefiner.language self
             +:+ " definition found for: '" +:+ word +:+ "'"))
  | _ :: _ =>
      match py_index fetched entry_n with
      | None => (Raised IndexError, looked)
      | Some e =>
          match py_index (definitions e) definition_n with
          | None =>
              (Returned None, told ("No definition found for: '" +:+ word +:+ "'"))
          | Some g =>
              match py_index (text g) 1 with
              | None => (Raised IndexError, looked)
              | Some d => (Returned (Some d), looked)
              end
          end
      end
  end.
Proof.
  cbn zeta.
  unfold WiktionaryDefiner.get_definition, WiktionaryDefiner.lookup_word,
    WiktionaryDefiner.get_entry, mbind, M_bind, mret, M_ret, print, getitem,
    raise. cbn -[py_index].
  destruct (WiktionaryDefiner.parser self word _) as [|e0 es] eqn:Ef;
    cbn -[py_index]; [reflexivity|].
  destruct (py_index (e0 :: es) entry_n) as [e|]; cbn -[py_index];
    [|reflexivity].
  destruct (py_index (definitions e) definition_n) as [g|]; cbn -[py_index];
    [|reflexivity].
  destruct (py_index (text g) 1) as [d|]; reflexivity.
Qed.

(** X5. The two indices of [get_definition] are not treated alike. With no
    entry at all the answer is [None] whatever the indices. Otherwise an
    [entry_n] out of range raises [IndexError], while a [definition_n] out of
    range is caught: [None] is returned and the missing definition is
    printed. Negative indices count from the end, as for any Python list. *)
Theorem X5_get_definition_indices (self : WiktionaryDefiner.t) (word : string)
    (entry_n definition_n : Z) (st : state) :
  let fetched := WiktionaryDefiner.parser self word (WiktionaryDefiner.language self) in
  let run := WiktionaryDefiner.get_definition self word entry_n definition_n st in
  (fetched = [] -> run.1 = Returned None)
  ∧ (fetched ≠ [] -> ¬ in_range fetched entry_n -> run.1 = Raised IndexError)
  ∧ (forall e, fetched ≠ [] -> py_index fetched entry_n = Some e ->
       ¬ in_range (definitions e) definition_n ->
       run.1 = Returned None
       ∧ stdout run.2
         = stdout st ++ ["No definition found for: '" +:+ word +:+ "'"])
  ∧ (in_range fetched entry_n -> (entry_n < 0)%Z ->
       run = WiktionaryDefiner.get_definition self word
               (Z.of_nat (length fetched) + entry_n) definition_n st)
  ∧ (forall e, py_index fetched entry_n = Some e ->
       in_range (definitions e) definition_n -> (definition_n < 0)%Z ->
       run = WiktionaryDefiner.get_definition self word entry_n
               (Z.of_nat (length (definitions e)) + definition_n) st).
Proof.
  cbn zeta. rewrite !get_definition_general. cbn zeta.
  destruct (WiktionaryDefiner.parser self word _) as [|e0 es] eqn:Ef.
  - split; [reflexivity|]. split; [contradiction|]. split; [contradiction|].
    split.
    + intros [Hlo Hhi]. cbn in *. lia.
    + intros e He. assert (Hsome : is_Some (py_index (@nil Entry) entry_n)) by eauto.
      apply py_index_in_range in Hsome as [Hlo Hhi]. cbn in *. lia.
  - split; [discriminate|]. split.
    { intros _ Hout. rewrite (py_index_out_of_range _ _ Hout). reflexivity. }
    split.
    { intros e _ He Hout. rewrite He, (py_index_out_of_range _ _ Hout).
      split; reflexivity. }
    split.
    { intros Hin Hneg.
      rewrite <- (py_index_negative _ _ Hin Hneg). reflexivity. }
    intros e He Hin Hneg. rewrite get_definition_general. cbn zeta.
    rewrite Ef, He, <- (py_index_negative _ _ Hin Hneg). reflexivity.
Qed.

Lemma X5_get_definition_indices_witness :
  (WiktionaryDefiner.get_definition stub_definer "stub" 1 0 initial).1
  = Raised IndexError
  ∧ (WiktionaryDefiner.get_definition stub_definer "stub" 0 1 initial).1
    = Returned None
  ∧ WiktionaryDefiner.get_definition stub_definer "stub" (-1) 0 initial
    = WiktionaryDefiner.get_definition stub_definer "stub" (1 + -1) 0 initial.
Proof.
  pose proof (X5_get_definition_indices stub_definer "stub" 1 0 initial)
    as (_ & Hentry & _).
  pose proof (X5_get_definition_indices stub_definer "stub" 0 1 initial)
    as (_ & _ & Hgroup & _).
  pose proof (X5_get_definition_indices stub_definer "stub" (-1) 0 initial)
    as (_ & _ & _ & Hneg & _).
  split; [|split].
  - apply Hentry; [discriminate|]. unfold in_range. cbn. lia.
  - apply (Hgroup _ ltac:(discriminate) eq_refl). unfold in_range. cbn. lia.
  - apply Hneg; [unfold in_range; cbn|]; lia.
Defined.

(** X6. Every call of [get_definition] makes exactly one request, for the
    word it was given, and leaves the fetched entries in [self.entry]; it
    prints one line exactly when it returns [None], and nothing when it
    returns a definition or raises. *)
Theorem X6_get_definition_effects (self : WiktionaryDefiner.t) (word : string)
    (entry_n definition_n : Z) (st : state) :
  let lang := WiktionaryDefiner.language self in
  let run := WiktionaryDefiner.get_definition self word entry_n definition_n st in
  requests run.2 = requests st ++ [(word, lang)]
  ∧ entry run.2 = Some (WiktionaryDefiner.parser self word lang)
  ∧ (run.1 = Returned None -> exists line, stdout run.2 = stdout st ++ [line])
  ∧ (run.1 ≠ Returned None -> stdout run.2 = stdout st).
Proof.
  cbn zeta. rewrite get_definition_general. cbn zeta.
  assert (Hsilent : forall (r : outcome (option string)) (s1 : state),
            r ≠ Returned None ->
            requests s1 = requests st ++ [(word, WiktionaryDefiner.language self)] ->
            entry s1 = Some (WiktionaryDefiner.parser self word
                               (WiktionaryDefiner.language self)) ->
            stdout s1 = stdout st ->
            requests (r, s1).2 = requests st ++ [(word, WiktionaryDefiner.language self)]
            ∧ entry (r, s1).2 = Some (WiktionaryDefiner.parser self word
                                        (WiktionaryDefiner.language self))
            ∧ ((r, s1).1 = Returned None ->
               exists line, stdout (r, s1).2 = stdout st ++ [line])
            ∧ ((r, s1).1 ≠ Returned None -> stdout (r, s1).2 = stdout st)).
  { intros r s1 Hr Hreq Hent Hout. cbn.
    split; [assumption|]. split; [assumption|].
    split; [intros Hnone; contradiction|intros _; assumption]. }
  assert (Htold : forall (line : string) (s1 : state),
            requests s1 = requests st ++ [(word, WiktionaryDefiner.language self)] ->
            entry s1 = Some (WiktionaryDefiner.parser self word
                               (WiktionaryDefiner.language self)) ->
            stdout s1 = stdout st ++ [line] ->
            requests (Returned (@None string), s1).2
              = requests st ++ [(word, WiktionaryDefiner.language self)]
            ∧ entry (Returned (@None string), s1).2
              = Some (WiktionaryDefiner.parser self word
                        (WiktionaryDefiner.language self))
            ∧ ((Returned (@None string), s1).1 = Returned None ->
               exists l, stdout (Returned (@None string), s1).2 = stdout st ++ [l])
            ∧ ((Returned (@None string), s1).1 ≠ Returned None ->
               stdout (Returned (@None string), s1).2 = stdout st)).
  { intros line s1 Hreq Hent Hout. cbn.
    split; [assumption|]. split; [assumption|]. split.
    - intros _. eauto.
    - intros Hne. exfalso. apply Hne. reflexivity. }
  destruct (WiktionaryDefiner.parser self word _) as [|e0 es].
  { eapply Htold; reflexivity. }
  destruct (py_index (e0 :: es) entry_n) as [e|].
  2: { apply Hsilent; [discriminate|reflexivity..]. }
  destruct (py_index (definitions e) definition_n) as [g|].
  2: { eapply Htold; reflexivity. }
  destruct (py_index (text g) 1) as [d|];
    (apply Hsilent; [discriminate|reflexivity..]).
Qed.

Lemma X6_get_definition_effects_witness :
  (exists line,
     stdout (WiktionaryDefiner.get_definition
               (WiktionaryDefiner.mk "english" fox_parser) "Fox" 0 0 initial).2
     = stdout initial ++ [line])
  ∧ stdout (WiktionaryDefiner.get_definition
              (WiktionaryDefiner.mk "english" fox_parser) "fox" 0 0 initial).2
    = stdout initial.
Proof.
  pose proof (X6_get_definition_effects
                (WiktionaryDefiner.mk "english" fox_parser) "Fox" 0 0 initial)
    as (_ & _ & Hnone & _).
  pose proof (X6_get_definition_effects
                (WiktionaryDefiner.mk "english" fox_parser) "fox" 0 0 initial)
    as (_ & _ & _ & Hfound).
  split; [apply Hnone; reflexivity|apply Hfound; discriminate].
Defined.

Lemma define_pure (self : WiktionaryDefiner.t) (word : string) (st : state) :
  let lang := WiktionaryDefiner.language self in
  WiktionaryDefiner.define self word st =
  (resolution self word,
   {| entry := Some (WiktionaryDefiner.parser self
                       (if retries self word then lower word else word) lang);
      requests := requests st ++ asked self word;
      stdout := stdout st ++ said self word |}).
Proof.
  cbn zeta. rewrite define_run. cbn zeta. rewrite !get_definition_run. cbn.
  unfold resolution, asked, said, retries, attempt.
  destruct (extraction (WiktionaryDefiner.parser self word _)) as [[d|]|e]; cbn;
    rewrite ?app_nil_r; try reflexivity.
  case_bool_decide; cbn; rewrite ?app_nil_r, <- ?app_assoc; reflexivity.
Qed.

Lemma resolution_raises (self : WiktionaryDefiner.t) (word : string) (e : exn) :
  resolution self word = Raised e -> e = IndexError.
Proof.
  unfold resolution, attempt.
  destruct (retries self word); intros H; apply extraction_raises in H; tauto.
Qed.

Lemma resolves_returned (self : WiktionaryDefiner.t) (word : string) :
  resolves self word = true ->
  resolution self word = Returned (definition_of self word).
Proof.
  unfold resolves, definition_of.
  destruct (resolution self word); [reflexivity|discriminate].
Qed.

Lemma resolves_raised (self : WiktionaryDefiner.t) (word : string) :
  resolves self word = false -> resolution self word = Raised IndexError.
Proof.
  unfold resolves. destruct (resolution self word) as [d|e] eqn:E;
    [discriminate|].
  intros _. rewrite (resolution_raises _ _ _ E). reflexivity.
Qed.

Lemma resolve_all_resolves (self : WiktionaryDefiner.t) (words : list Word.t)
    (st : state) :
  forallb (fun w => resolves self (Word.word w)) words = true ->
  (resolve_all self words st).1
  = Returned ((fun w => resolved_word self (Word.word w)) <$> words)
  ∧ requests (resolve_all self words st).2
    = requests st ++ concat ((fun w => asked self (Word.word w)) <$> words)
  ∧ stdout (resolve_all self words st).2
    = stdout st ++ concat ((fun w => said self (Word.word w)) <$> words).
Proof.
  revert st. induction words as [|w rest IH]; intros st Hall.
  - cbn. rewrite !app_nil_r. repeat split.
  - cbn [forallb] in Hall. apply andb_true_iff in Hall as [Hw Hrest].
    rewrite resolve_all_cons, define_pure. cbn zeta.
    rewrite (resolves_returned _ _ Hw).
    match goal with
    | |- context [resolve_all self rest ?s] =>
        destruct (IH s Hrest) as (Hout & Hreq & Hsaid);
        destruct (resolve_all self rest s) as [[rest'|e] st2]
    end; cbn in Hout, Hreq, Hsaid |- *; [|discriminate Hout].
    injection Hout as ->. rewrite Hreq, Hsaid, <- !app_assoc.
    repeat split.
Qed.

Lemma resolve_all_raises (self : WiktionaryDefiner.t) (words : list Word.t)
    (st : state) :
  forallb (fun w => resolves self (Word.word w)) words = false ->
  (resolve_all self words st).1 = Raised IndexError.
Proof.
  revert st. induction words as [|w rest IH]; intros st Hall; [discriminate|].
  cbn [forallb] in Hall. rewrite resolve_all_cons, define_pure. cbn zeta.
  destruct (resolves self (Word.word w)) eqn:Hw.
  - rewrite (resolves_returned _ _ Hw). cbn in Hall.
    match goal with
    | |- context [resolve_all self rest ?s] =>
        pose proof (IH s Hall) as Hout;
        destruct (resolve_all self rest s) as [[rest'|e] st2]
    end; cbn in Hout |- *; [discriminate|exact Hout].
  - rewrite (resolves_raised _ _ Hw). reflexivity.
Qed.

Lemma forallb_words (self : WiktionaryDefiner.t) (words : list string) :
  forallb (fun w => resolves self (Word.word w)) (Word.new <$> words)
  = forallb (resolves self) words.
Proof. induction words as [|w words IH]; [reflexivity|]. cbn. rewrite IH. reflexivity. Qed.

(** X7. [define] keeps nothing from one word to the next: its outcome, the
    requests it makes and the lines it prints are the same from every state,
    and they depend on the parser's answers for the word and its lowercased
    form only. In particular a stale [self.entry] is never read. *)
Theorem X7_define_independent_of_state (self : WiktionaryDefiner.t)
    (word : string) (st st0 : state) :
  (WiktionaryDefiner.define self word st).1
  = (WiktionaryDefiner.define self word st0).1
  ∧ (WiktionaryDefiner.define self word st).1 = resolution self word
  ∧ requests (WiktionaryDefiner.define self word st).2
    = requests st ++ asked self word
  ∧ stdout (WiktionaryDefiner.define self word st).2
    = stdout st ++ said self word
  ∧ entry (WiktionaryDefiner.define self word st).2
    = entry (WiktionaryDefiner.define self word st0).2.
Proof. rewrite !define_pure. repeat split. Qed.

(** X8. The loop of [get_words] gives every selected word what [define]
    gives it alone. When no selected word raises, the loop ends with the
    selected words in their order, each with its own definition (or [None]),
    and the requests are those of the words, word after word; when the
    resolution of some word raises, the loop raises [IndexError] and no list
    of words is left. *)
Theorem X8_get_words_resolves_each_word (self : Wiki2Anki.t) (st : state) :
  let definer := Wiki2Anki.definer self in
  let words := Wiki2Anki.uncommon_words self in
  let run := Wiki2Anki.get_words_locals self st in
  (forallb (resolves definer) words = true ->
     run.1 = Returned (resolved_word definer <$> words)
     ∧ requests run.2 = requests st ++ concat (asked definer <$> words)
     ∧ stdout run.2 = stdout st ++ concat (said definer <$> words))
  ∧ (forallb (resolves definer) words = false -> run.1 = Raised IndexError).
Proof.
  cbn zeta. unfold Wiki2Anki.get_words_locals. split.
  - intros Hall. rewrite <- forallb_words in Hall.
    destruct (resolve_all_resolves _ _ st Hall) as (Hout & Hreq & Hsaid).
    rewrite Hout, Hreq, Hsaid, <- !list_fmap_compose. repeat split.
  - intros Hall. rewrite <- forallb_words in Hall.
    apply resolve_all_raises, Hall.
Qed.

Lemma X8_get_words_resolves_each_word_witness :
  (Wiki2Anki.get_words_locals fox_run initial).1
  = Returned (resolved_word (Wiki2Anki.definer fox_run)
                <$> Wiki2Anki.uncommon_words fox_run)
  ∧ (Wiki2Anki.get_words_locals stub_run initial).1 = Raised IndexError.
Proof.
  pose proof (X8_get_words_resolves_each_word fox_run initial) as [Hfox _].
  pose proof (X8_get_words_resolves_each_word stub_run initial) as [_ Hstub].
  split; [apply Hfox|apply Hstub]; vm_compute; reflexivity.
Defined.

(** X9. [get_words] never hands its words over: it returns [None] when every
    selected word resolves and raises [IndexError] otherwise. So [get_cards]
    and [get_deck] raise on every page: [TypeError] in the first case, the
    [IndexError] of the resolution in the second. *)
Theorem X9_get_deck_never_returns (self : Wiki2Anki.t) (st : state) :
  let definer := Wiki2Anki.definer self in
  let words := Wiki2Anki.uncommon_words self in
  (forallb (resolves definer) words = true ->
     (Wiki2Anki.get_words self st).1 = Returned None
     ∧ (Wiki2Anki.get_cards self st).1 = Raised TypeError
     ∧ (Wiki2Anki.get_deck self st).1 = Raised TypeError)
  ∧ (forallb (resolves definer) words = false ->
     (Wiki2Anki.get_words self st).1 = Raised IndexError
     ∧ (Wiki2Anki.get_cards self st).1 = Raised IndexError
     ∧ (Wiki2Anki.get_deck self st).1 = Raised IndexError)
  ∧ (Wiki2Anki.get_deck self st).2 = (Wiki2Anki.get_words_locals self st).2.
Proof.
  cbn zeta.
  unfold Wiki2Anki.get_deck, Wiki2Anki.get_cards, Wiki2Anki.get_words, mbind, M_bind.
  unfold Wiki2Anki.get_words_locals.
  split; [|split].
  - intros Hall. rewrite <- forallb_words in Hall.
    destruct (resolve_all_resolves _ _ st Hall) as (Hout & _).
    destruct (resolve_all _ _ st) as [[ws|e] st']; cbn in *; [|discriminate].
    repeat split.
  - intros Hall. rewrite <- forallb_words in Hall.
    pose proof (resolve_all_raises _ _ st Hall) as Hout.
    destruct (resolve_all _ _ st) as [[ws|e] st']; cbn in *; [discriminate|].
    injection Hout as ->. repeat split.
  - destruct (resolve_all _ _ st) as [[ws|e] st']; reflexivity.
Qed.

Lemma X9_get_deck_never_returns_witness :
  ((Wiki2Anki.get_words fox_run initial).1 = Returned None
   ∧ (Wiki2Anki.get_cards fox_run initial).1 = Raised TypeError
   ∧ (Wiki2Anki.get_deck fox_run initial).1 = Raised TypeError)
  ∧ ((Wiki2Anki.get_words stub_run initial).1 = Raised IndexError
     ∧ (Wiki2Anki.get_cards stub_run initial).1 = Raised IndexError
     ∧ (Wiki2Anki.get_deck stub_run initial).1 = Raised IndexError).
Proof.
  pose proof (X9_get_deck_never_returns fox_run initial) as (Hfox & _ & _).
  pose proof (X9_get_deck_never_returns stub_run initial) as (_ & Hstub & _).
  split; [apply Hfox|apply Hstub]; vm_compute; reflexivity.
Defined.

(** X10. [write] opens its file before it builds the deck, and the deck is
    never built: whatever the page, [write] raises and leaves an empty file
    at [location], so the former content of that file is lost; no other file
    is touched. *)
Theorem X10_write_leaves_empty_file (self : Wiki2Anki.t) (location : string)
    (files : gmap string string) (st : state) :
  let run := Wiki2Anki.write self location files st in
  (exists e, run.1.1 = Raised e)
  ∧ run.2 !! location = Some ""
  ∧ (forall path, path ≠ location -> run.2 !! path = files !! path)
  ∧ run.1.2 = (Wiki2Anki.get_deck self st).2.
Proof.
  cbn zeta. unfold Wiki2Anki.write.
  destruct (get_deck_always_raises self st) as [e He].
  destruct (Wiki2Anki.get_deck self st) as [[deck|e'] st'];
    cbn in He |- *; [discriminate|].
  split; [eauto|]. split; [apply lookup_insert_eq|].
  split; [|reflexivity].
  intros path Hne. apply lookup_insert_ne. congruence.
Qed.

Lemma X10_write_leaves_empty_file_witness :
  (Wiki2Anki.write fox_run "deck.txt"
     (<["notes.txt" := "keep"]> (<["deck.txt" := "old deck"]> ∅)) initial).2
    !! "notes.txt"
  = (<["notes.txt" := "keep"]> (<["deck.txt" := "old deck"]> ∅) : gmap string string)
      !! "notes.txt".
Proof.
  pose proof (X10_write_leaves_empty_file fox_run "deck.txt"
                (<["notes.txt" := "keep"]> (<["deck.txt" := "old deck"]> ∅))
                initial) as (_ & _ & Hother & _).
  apply Hother. discriminate.
Defined.

(** ** A page without words *)

Lemma string_filter_none (p : ascii -> bool) (s : string) :
  string_exists p s = false -> string_filter p s = "".
Proof.
  induction s as [|c s IH]; [reflexivity|]. cbn.
  intros [-> Hs]%orb_false_iff. apply IH, Hs.
Qed.

Lemma append_empty (a b : string) : a +:+ b = "" -> a = "" ∧ b = "".
Proof. destruct a; [rewrite append_nil_l; auto|discriminate]. Qed.

Lemma concat_all_empty (items : list string) :
  concat_all items = "" -> Forall (fun x => x = "") items.
Proof.
  induction items as [|x items IH]; [constructor|].
  unfold concat_all in *. cbn [foldr].
  intros [Hx Hrest]%append_empty. constructor; [exact Hx|apply IH, Hrest].
Qed.

Lemma drop_duplicates_from_seen (x : string) (seen col : list string) :
  x ∈ seen -> Forall (fun y => y = x) col -> drop_duplicates_from seen col = [].
Proof.
  intros Hx Hall. induction Hall as [|y col -> _ IH]; [reflexivity|].
  cbn. rewrite bool_decide_true by exact Hx. exact IH.
Qed.

Lemma drop_duplicates_all_same (x : string) (col : list string) :
  col ≠ [] -> Forall (fun y => y = x) col -> drop_duplicates col = [x].
Proof.
  intros Hne Hall. destruct Hall as [|y col -> Hall]; [contradiction|].
  unfold drop_duplicates. cbn.
  rewrite bool_decide_false by (intros H; inversion H).
  rewrite (drop_duplicates_from_seen x); [reflexivity|left|exact Hall].
Qed.

Lemma asked_empty (self : WiktionaryDefiner.t) :
  asked self "" = [("", WiktionaryDefiner.language self)].
Proof.
  unfold asked, retries. destruct (attempt self "") as [[d|]|e]; reflexivity.
Qed.

Lemma resolve_all_one_requests (self : WiktionaryDefiner.t) (w : Word.t)
    (st : state) :
  requests (resolve_all self [w] st).2 = requests st ++ asked self (Word.word w).
Proof.
  rewrite resolve_all_cons, define_pure. cbn zeta.
  destruct (resolution self (Word.word w)); reflexivity.
Qed.

(** X11. A page without a single word character (empty, or whitespace and
    punctuation only) still reaches the dictionary: its only token is the
    empty string, and unless the table lists the empty string the run makes
    exactly one request, for the empty word; when the table lists it, no
    word is selected and no request is made. *)
Theorem X11_page_without_words (self : Wiki2Anki.t) :
  let lang := WiktionaryDefiner.language (Wiki2Anki.definer self) in
  let table := word_column (Wiki2Anki.common self) in
  string_exists isword (Page.get_text (Wiki2Anki.wiki self)) = false ->
  drop_duplicates (Page.get_words (Wiki2Anki.wiki self) (Wiki2Anki.cleaner self))
  = [""]
  ∧ ("" ∉ table ->
       Wiki2Anki.uncommon_words self = [""]
       ∧ forall st,
           requests (Wiki2Anki.get_words_locals self st).2
           = requests st ++ [("", lang)])
  ∧ ("" ∈ table ->
       Wiki2Anki.uncommon_words self = []
       ∧ forall st, Wiki2Anki.get_words_locals self st = (Returned [], st)).
Proof.
  intros lang table Hnone.
  assert (Hdedup :
    drop_duplicates (Page.get_words (Wiki2Anki.wiki self) (Wiki2Anki.cleaner self))
    = [""]).
  { unfold Page.get_words. destruct (Wiki2Anki.cleaner self).
    apply drop_duplicates_all_same.
    - rewrite clean_unfold. apply split_nonempty.
    - apply concat_all_empty. rewrite concat_all_clean.
      apply string_filter_none, Hnone. }
  split; [exact Hdedup|]. split.
  - intros Htable.
    assert (Hsel : Wiki2Anki.uncommon_words self = [""]).
    { rewrite uncommon_words_filter, Hdedup.
      change (head 100 [""]) with [""].
      rewrite filter_cons_True by (apply empty_unlisted, Htable). reflexivity. }
    split; [exact Hsel|]. intros st.
    unfold Wiki2Anki.get_words_locals. rewrite Hsel. cbn [fmap list_fmap].
    rewrite resolve_all_one_requests. cbn. apply f_equal, asked_empty.
  - intros Htable.
    assert (Hsel : Wiki2Anki.uncommon_words self = []).
    { rewrite uncommon_words_filter, Hdedup.
      change (head 100 [""]) with [""].
      rewrite filter_cons_False; [reflexivity|].
      intros Hun. apply Hun. left. exact Htable. }
    split; [exact Hsel|]. intros st.
    unfold Wiki2Anki.get_words_locals. rewrite Hsel. reflexivity.
Qed.

Lemma X11_page_without_words_witness :
  Wiki2Anki.uncommon_words
    (Wiki2Anki.new "https://en.wikipedia.org/wiki/Dot" 5000 " ., "
       fox_parser fox_table)
  = [""]
  ∧ (forall st,
       requests (Wiki2Anki.get_words_locals
                   (Wiki2Anki.new "https://en.wikipedia.org/wiki/Dot" 5000 " ., "
                      fox_parser fox_table) st).2
       = requests st ++ [("", "english")]).
Proof.
  pose proof (X11_page_without_words
                (Wiki2Anki.new "https://en.wikipedia.org/wiki/Dot" 5000 " ., "
                   fox_parser fox_table) eq_refl) as (_ & Hrun & _).
  apply Hrun. apply (bool_decide_unpack _). vm_compute. exact I.
Defined.

(** ** The two versions of the resolver and of the filter *)

(** X12. The module-level resolver of [source.py] and the class of [page.py]
    behave alike: [_query_wiktionary] and [get_definition], and
    [query_wiktionary] and [define], give the same outcome, make the same
    requests and print the same lines for every parser, word and state. The
    one difference is that only the class stores the fetched entries. *)
Theorem X12_source_and_class_resolvers_agree (PARSER : Parser) (word : string)
    (st : state) :
  let definer := WiktionaryDefiner.mk Source.LANGUAGE PARSER in
  let old_attempt := Source._query_wiktionary PARSER word st in
  let new_attempt := WiktionaryDefiner.get_definition definer word 0 0 st in
  let old := Source.query_wiktionary PARSER word st in
  let new := WiktionaryDefiner.define definer word st in
  (old_attempt.1 = new_attempt.1
   ∧ requests old_attempt.2 = requests new_attempt.2
   ∧ stdout old_attempt.2 = stdout new_attempt.2
   ∧ entry old_attempt.2 = entry st)
  ∧ (old.1 = new.1
     ∧ requests old.2 = requests new.2
     ∧ stdout old.2 = stdout new.2
     ∧ entry old.2 = entry st).
Proof.
  cbn zeta. split.
  - rewrite _query_wiktionary_run, get_definition_run. repeat split.
  - rewrite query_wiktionary_define. repeat split.
Qed.

Lemma filter_idem {A : Type} (P : A -> Prop) `{!forall x, Decision (P x)}
    (l : list A) :
  filter P (filter P l) = filter P l.
Proof.
  induction l as [|x l IH]; [reflexivity|].
  rewrite filter_cons. case_decide as Hx; [|exact IH].
  rewrite filter_cons_True by exact Hx. rewrite IH. reflexivity.
Qed.

Lemma filter_all {A : Type} (P : A -> Prop) `{!forall x, Decision (P x)}
    (l : list A) :
  (forall x, P x) -> filter P l = l.
Proof.
  intros HP. induction l as [|x l IH]; [reflexivity|].
  rewrite filter_cons_True by apply HP. rewrite IH. reflexivity.
Qed.

Lemma filter_sublist_impl {A : Type} (P Q : A -> Prop)
    `{!forall x, Decision (P x)} `{!forall x, Decision (Q x)} (l : list A) :
  (forall x, P x -> Q x) -> filter P l `sublist_of` filter Q l.
Proof.
  intros Himp. induction l as [|x l IH]; [constructor|].
  rewrite !filter_cons. case_decide as HP; case_decide as HQ.
  - apply sublist_skip, IH.
  - destruct (HQ (Himp _ HP)).
  - apply sublist_cons, IH.
  - exact IH.
Qed.

Lemma take_elem_mono {A : Type} (n m : nat) (l : list A) (x : A) :
  n <= m -> x ∈ take n l -> x ∈ take m l.
Proof.
  intros Hnm Hx. rewrite <- (take_drop n (take m l)).
  rewrite take_take, Nat.min_l by exact Hnm.
  apply elem_of_app. left. exact Hx.
Qed.

Lemma listed_nil (w : string) : ¬ listed [] w.
Proof. intros [H | H]; inversion H. Qed.

Lemma head_nil {A : Type} (n : Z) : head n (@nil A) = [].
Proof. unfold head. destruct (0 <=? n)%Z; apply take_nil. Qed.

(** X13. What [remove_common] does with its threshold. Filtering twice is
    filtering once; with [top = 0], or with an empty table, nothing is
    removed; raising a non-negative [top] only removes more, in the same
    order; a [top] beyond the table is the whole table; and the selection of
    [Wiki2Anki.get_words] is [remove_common] applied to the first 100
    deduplicated tokens. *)
Theorem X13_remove_common_threshold (csv : FrequencyTable) (df : list string)
    (top top' : Z) :
  Source.remove_common csv (Source.remove_common csv df top) top
  = Source.remove_common csv df top
  ∧ Source.remove_common csv df 0 = df
  ∧ Source.remove_common [] df top = df
  ∧ ((0 <= top <= top')%Z ->
       Source.remove_common csv df top'
         `sublist_of` Source.remove_common csv df top)
  ∧ ((Z.of_nat (length csv) <= top)%Z ->
       Source.remove_common csv df top
       = filter (fun w => ¬ listed (word_column csv) w) df)
  ∧ (forall url body parser,
       Wiki2Anki.uncommon_words (Wiki2Anki.new url top body parser csv)
       = Source.remove_common csv
           (head 100 (drop_duplicates (clean BasicEnglishCleaner.mk body))) top).
Proof.
  rewrite !remove_common_filter.
  split; [apply filter_idem|].
  split; [apply filter_all; intros w; apply listed_nil|].
  split; [rewrite head_nil; apply filter_all; intros w; apply listed_nil|].
  split.
  { intros [Hlo Hhi]. apply filter_sublist_impl. intros w Hun Hl. apply Hun.
    unfold listed in *. rewrite !word_column_head in * by lia.
    unfold first_rows in *.
    destruct Hl as [Hl | Hl]; [left|right];
      (eapply take_elem_mono; [|exact Hl]); lia. }
  split.
  { intros Hlen. rewrite head_nonneg by lia.
    rewrite take_ge by lia. reflexivity. }
  intros url body parser. reflexivity.
Qed.

Lemma X13_remove_common_threshold_witness :
  Source.remove_common fox_table ["The"; "Fox"; "dog"] 5
    `sublist_of` Source.remove_common fox_table ["The"; "Fox"; "dog"] 1
  ∧ Source.remove_common fox_table ["The"; "Fox"; "dog"] 5000
    = filter (fun w => ¬ listed (word_column fox_table) w) ["The"; "Fox"; "dog"].
Proof.
  pose proof (X13_remove_common_threshold fox_table ["The"; "Fox"; "dog"] 1 5)
    as (_ & _ & _ & Hmono & _).
  pose proof (X13_remove_common_threshold fox_table ["The"; "Fox"; "dog"] 5000 0)
    as (_ & _ & _ & _ & Hall & _).
  split; [apply Hmono; lia|apply Hall; cbn; lia].
Defined.

(** ** Duplicates *)

Lemma drop_duplicates_from_NoDup_id (seen col : list string) :
  NoDup col -> (forall x, x ∈ col -> x ∉ seen) ->
  drop_duplicates_from seen col = col.
Proof.
  intros Hnd. revert seen. induction Hnd as [|x col Hx Hnd IH]; intros seen Hseen;
    [reflexivity|].
  cbn. rewrite bool_decide_false by (apply Hseen; left).
  f_equal. apply IH. intros y Hy [-> | Hin]%elem_of_cons; [contradiction|].
  apply (Hseen y); [right; exact Hy|exact Hin].
Qed.

Lemma uncommon_words_NoDup (self : Wiki2Anki.t) :
  NoDup (Wiki2Anki.uncommon_words self).
Proof.
  rewrite uncommon_words_filter.
  eapply sublist_NoDup; [|apply sublist_filter].
  eapply sublist_NoDup; [|apply head_sublist].
  apply drop_duplicates_from_NoDup.
Qed.

(** X14. [drop_duplicates] is idempotent and leaves a column without
    repeats as it is; it never lengthens a column. Hence no word is selected
    twice by [get_words], the resolved words are pairwise different, and the
    cards [as_string] keeps from them never share a word. *)
Theorem X14_no_word_twice (self : Wiki2Anki.t) (col : list string) :
  drop_duplicates (drop_duplicates col) = drop_duplicates col
  ∧ (NoDup col -> drop_duplicates col = col)
  ∧ length (drop_duplicates col) <= length col
  ∧ NoDup (Wiki2Anki.uncommon_words self)
  ∧ (forall st ws st',
       Wiki2Anki.get_words_locals self st = (Returned ws, st') ->
       NoDup (Word.word <$> ws)
       ∧ NoDup (Flashcard.word <$> Deck.kept (Flashcard.from_word <$> ws))).
Proof.
  assert (Hid : forall l, NoDup l -> drop_duplicates l = l).
  { intros l Hl. apply drop_duplicates_from_NoDup_id; [exact Hl|].
    intros x _ Hx. inversion Hx. }
  split; [apply Hid, drop_duplicates_from_NoDup|].
  split; [apply Hid|].
  split; [apply sublist_length, drop_duplicates_from_sublist|].
  split; [apply uncommon_words_NoDup|].
  intros st ws st' Hrun.
  assert (Hws : NoDup (Word.word <$> ws)).
  { rewrite (get_words_locals_words _ _ _ _ Hrun). apply uncommon_words_NoDup. }
  split; [exact Hws|].
  eapply sublist_NoDup; [|apply fmap_sublist, kept_sublist].
  rewrite from_word_words. exact Hws.
Qed.

Lemma X14_no_word_twice_witness :
  drop_duplicates ["a"; "b"; "c"] = ["a"; "b"; "c"]
  ∧ NoDup (Word.word
             <$> [ Word.mk "Fox" (Some "a wild canine"); Word.mk "jumps" None ]).
Proof.
  pose proof (X14_no_word_twice fox_run ["a"; "b"; "c"])
    as (_ & Hid & _ & _ & Hrun).
  split.
  - apply Hid. apply (bool_decide_unpack _). vm_compute. exact I.
  - exact (proj1 (Hrun initial _ _ eq_refl)).
Defined.

(** ** Decks and cards *)

Lemma join_app (sep : string) (a b : list string) :
  a ≠ [] -> b ≠ [] ->
  join sep (a ++ b) = join sep a +:+ sep +:+ join sep b.
Proof.
  intros Ha Hb. induction a as [|x a IH]; [contradiction|].
  destruct a as [|y a].
  - destruct b as [|z b]; [contradiction|]. reflexivity.
  - change ((x :: y :: a) ++ b) with (x :: (y :: a) ++ b).
    change ((y :: a) ++ b) with (y :: a ++ b) at 1.
    rewrite !join_cons2.
    change (y :: a ++ b) with ((y :: a) ++ b).
    rewrite IH by discriminate. rewrite !string_app_assoc. reflexivity.
Qed.

Lemma kept_app (d1 d2 : list Flashcard.t) :
  Deck.kept (d1 ++ d2) = Deck.kept d1 ++ Deck.kept d2.
Proof. rewrite !kept_clean. apply filter_app. Qed.

(** X15. Decks compose: the cards kept from two decks put together are the
    cards kept from each, in order, and the text of the whole is the two
    texts with one line break between them; when one of the two keeps no
    card, the text of the whole is the text of the other, without any line
    break added. *)
Theorem X15_as_string_of_two_decks (d1 d2 : list Flashcard.t) :
  Deck.kept (d1 ++ d2) = Deck.kept d1 ++ Deck.kept d2
  ∧ (Deck.kept d1 = [] -> Deck.as_string (d1 ++ d2) = Deck.as_string d2)
  ∧ (Deck.kept d2 = [] -> Deck.as_string (d1 ++ d2) = Deck.as_string d1)
  ∧ (Deck.kept d1 ≠ [] -> Deck.kept d2 ≠ [] ->
       Deck.as_string (d1 ++ d2)
       = Deck.as_string d1 +:+ newline +:+ Deck.as_string d2).
Proof.
  split; [apply kept_app|].
  unfold Deck.as_string. rewrite kept_app, fmap_app.
  split; [intros ->; reflexivity|].
  split; [intros ->; rewrite app_nil_r; reflexivity|].
  intros H1 H2. apply join_app.
  - destruct (Deck.kept d1); [contradiction|discriminate].
  - destruct (Deck.kept d2); [contradiction|discriminate].
Qed.

Lemma X15_as_string_of_two_decks_witness :
  Deck.as_string
    ([ Flashcard.mk "Fox" (Some "a wild canine") ]
     ++ [ Flashcard.mk "jumps" None; Flashcard.mk "cub" (Some "a young fox") ])
  = Deck.as_string [ Flashcard.mk "Fox" (Some "a wild canine") ]
    +:+ newline
    +:+ Deck.as_string
          [ Flashcard.mk "jumps" None; Flashcard.mk "cub" (Some "a young fox") ].
Proof.
  pose proof (X15_as_string_of_two_decks
                [ Flashcard.mk "Fox" (Some "a wild canine") ]
                [ Flashcard.mk "jumps" None; Flashcard.mk "cub" (Some "a young fox") ])
    as (_ & _ & _ & Hboth).
  apply Hboth; vm_compute; discriminate.
Defined.

Lemma string_length_app (a b : string) :
  String.length (a +:+ b) = String.length a + String.length b.
Proof.
  induction a as [|c a IH]; [reflexivity|].
  rewrite append_cons. cbn [String.length]. rewrite IH. reflexivity.
Qed.

Lemma string_app_inv_tail (a b c : string) : a +:+ c = b +:+ c -> a = b.
Proof.
  revert b. induction a as [|x a IH]; intros [|y b] H.
  - reflexivity.
  - apply (f_equal String.length) in H.
    rewrite append_nil_l, append_cons in H. cbn [String.length] in H.
    rewrite string_length_app in H. lia.
  - apply (f_equal String.length) in H.
    rewrite append_nil_l, append_cons in H. cbn [String.length] in H.
    rewrite string_length_app in H. lia.
  - rewrite !append_cons in H. injection H as -> H. f_equal. apply IH, H.
Qed.

Lemma split_at_semicolon (w1 w2 r1 r2 : string) :
  string_exists is_semicolon w1 = false ->
  string_exists is_semicolon w2 = false ->
  w1 +:+ String ";" r1 = w2 +:+ String ";" r2 ->
  w1 = w2 ∧ r1 = r2.
Proof.
  revert w2. induction w1 as [|c1 w1 IH]; intros [|c2 w2] H1 H2 H.
  - rewrite !append_nil_l in H. injection H as ->. auto.
  - rewrite append_nil_l, append_cons in H. injection H as <- _.
    cbn in H2. discriminate H2.
  - rewrite append_nil_l, append_cons in H. injection H as -> _.
    cbn in H1. discriminate H1.
  - rewrite !append_cons in H. injection H as -> H.
    cbn [string_exists] in H1, H2.
    apply orb_false_iff in H1 as [_ H1]. apply orb_false_iff in H2 as [_ H2].
    destruct (IH _ H1 H2 H) as [-> ->]. auto.
Qed.

Lemma semicolon_not_word (c : ascii) :
  is_semicolon c = true -> negb (isword c) = true.
Proof.
  destruct c as [[] [] [] [] [] [] [] []]; vm_compute; congruence.
Qed.

Lemma clean_tokens_no_semicolon (s tok : string) :
  tok ∈ clean BasicEnglishCleaner.mk s -> string_exists is_semicolon tok = false.
Proof.
  intros Hin. pose proof (clean_tokens_word_chars s) as Hall.
  rewrite Forall_forall in Hall.
  eapply string_exists_impl; [|apply (Hall tok Hin)].
  apply semicolon_not_word.
Qed.

(** X16. A card of a page word can be read back: for two words that [clean]
    produced (they hold no semicolon) and any two definitions, equal card
    lines mean the same word and the same definition. The same holds for any
    two words without a semicolon. *)
Theorem X16_flashcard_line_determines_card (w1 w2 d1 d2 : string) :
  (string_exists is_semicolon w1 = false ->
   string_exists is_semicolon w2 = false ->
   Flashcard.get_flashcard (Flashcard.mk w1 (Some d1))
   = Flashcard.get_flashcard (Flashcard.mk w2 (Some d2)) ->
   w1 = w2 ∧ d1 = d2)
  ∧ (forall s,
       w1 ∈ clean BasicEnglishCleaner.mk s ->
       w2 ∈ clean BasicEnglishCleaner.mk s ->
       Flashcard.get_flashcard (Flashcard.mk w1 (Some d1))
       = Flashcard.get_flashcard (Flashcard.mk w2 (Some d2)) ->
       w1 = w2 ∧ d1 = d2).
Proof.
  assert (Hinj : string_exists is_semicolon w1 = false ->
                 string_exists is_semicolon w2 = false ->
                 Flashcard.get_flashcard (Flashcard.mk w1 (Some d1))
                 = Flashcard.get_flashcard (Flashcard.mk w2 (Some d2)) ->
                 w1 = w2 ∧ d1 = d2).
  { intros H1 H2. unfold Flashcard.get_flashcard. cbn [Flashcard.word
      Flashcard.definition format_value].
    change ("; " +:+ dquote +:+ d1 +:+ dquote)
      with (String ";" (" " +:+ dquote +:+ d1 +:+ dquote)).
    change ("; " +:+ dquote +:+ d2 +:+ dquote)
      with (String ";" (" " +:+ dquote +:+ d2 +:+ dquote)).
    intros H. destruct (split_at_semicolon _ _ _ _ H1 H2 H) as [-> Hrest].
    split; [reflexivity|].
    apply (inj (String.append " ")) in Hrest.
    apply (inj (String.append dquote)) in Hrest.
    apply string_app_inv_tail in Hrest. exact Hrest. }
  split; [exact Hinj|].
  intros s Hin1 Hin2. apply Hinj; eapply clean_tokens_no_semicolon; eassumption.
Qed.

Lemma X16_flashcard_line_determines_card_witness :
  lower "FOX" = "fox" ∧ lower "A Wild Canine" = "a wild canine".
Proof.
  pose proof (X16_flashcard_line_determines_card
                (lower "FOX") "fox" (lower "A Wild Canine") "a wild canine")
    as [_ Hpage].
  apply (Hpage "The fox."); try reflexivity;
    apply (bool_decide_unpack _); vm_compute; exact I.
Defined.

(** ** Case variants *)

Lemma lower_char_idem (c : ascii) : lower_char (lower_char c) = lower_char c.
Proof.
  destruct c as [[] [] [] [] [] [] [] []]; vm_compute; reflexivity.
Qed.

Lemma lower_idem (w : string) : lower (lower w) = lower w.
Proof.
  unfold lower. induction w as [|c w IH]; [reflexivity|]. cbn.
  rewrite lower_char_idem, IH. reflexivity.
Qed.

Lemma retries_lower (self : WiktionaryDefiner.t) (word : string) :
  retries self (lower word) = false.
Proof.
  unfold retries. destruct (attempt self (lower word)) as [[d|]|e];
    try reflexivity.
  apply bool_decide_eq_false. intros H. apply H, lower_idem.
Qed.

(** X17. The retry does not cascade, and it makes case variants share a
    definition: [define] on an already lowercased word makes one request;
    and a word whose own lookup returns nothing is resolved exactly as its
    lowercased form is, from any two states. So a page that holds both [Fox]
    and [fox] (deduplication is by exact string) resolves both to the
    definition of [fox] when [Fox] has no entry. *)
Theorem X17_case_variants_share_resolution (self : WiktionaryDefiner.t)
    (word : string) (st st' : state) :
  requests (WiktionaryDefiner.define self (lower word) st).2
  = requests st ++ [(lower word, WiktionaryDefiner.language self)]
  ∧ ((WiktionaryDefiner.get_definition self word 0 0 st).1 = Returned None ->
     (WiktionaryDefiner.define self word st).1
     = (WiktionaryDefiner.define self (lower word) st').1).
Proof.
  rewrite !define_pure, get_definition_run. cbn.
  unfold asked, resolution. rewrite retries_lower.
  split; [reflexivity|]. intros Hnone.
  unfold retries, attempt. rewrite Hnone.
  case_bool_decide as Hcase; [reflexivity|].
  assert (Hsame : lower word = word).
  { destruct (decide (lower word = word)); [assumption|contradiction]. }
  rewrite Hsame. symmetry. exact Hnone.
Qed.

Lemma X17_case_variants_share_resolution_witness :
  (WiktionaryDefiner.define (WiktionaryDefiner.mk "english" fox_parser) "Fox" initial).1
  = (WiktionaryDefiner.define (WiktionaryDefiner.mk "english" fox_parser)
       (lower "Fox") initial).1.
Proof.
  pose proof (X17_case_variants_share_resolution
                (WiktionaryDefiner.mk "english" fox_parser) "Fox" initial initial)
    as [_ Hshare].
  apply Hshare. reflexivity.
Defined.

(** ** The empty token and the resolver *)

Lemma resolve_all_reaches (self : WiktionaryDefiner.t)
    (before : list Word.t) (w : Word.t) (after : list Word.t) (st : state) :
  forallb (fun b => resolves self (Word.word b)) before = true ->
  (Word.word w, WiktionaryDefiner.language self)
    ∈ requests (resolve_all self (before ++ w :: after) st).2.
Proof.
  revert st. induction before as [|b before IH]; intros st Hall.
  - destruct (resolve_all_requests self (w :: after) st)
      as (more & Hreq & _ & Hfirst).
    destruct (Hfirst _ _ eq_refl) as [more' ->].
    cbn [app]. rewrite Hreq. apply elem_of_app. right. left.
  - cbn [forallb] in Hall. apply andb_true_iff in Hall as [Hb Hrest].
    change ((b :: before) ++ w :: after) with (b :: (before ++ w :: after)).
    rewrite resolve_all_cons, define_pure. cbn zeta.
    rewrite (resolves_returned _ _ Hb).
    match goal with
    | |- context [resolve_all self (before ++ w :: after) ?s] =>
        pose proof (IH s Hrest) as Hin;
        destruct (resolve_all self (before ++ w :: after) s) as [[ws|e] st2]
    end; exact Hin.
Qed.

(** C9, as stated, fails: after one hundred distinct words the empty token
    that a trailing space leaves is the 101st row, and the cap drops it
    before the frequency filter and the resolution. *)
Lemma C9_counterexample_beyond_cap :
  "" ∈ Page.get_words (Wiki2Anki.wiki hundred_run) (Wiki2Anki.cleaner hundred_run)
  ∧ ("" ∉ word_column (Wiki2Anki.common hundred_run))
  ∧ ("" ∉ Wiki2Anki.uncommon_words hundred_run)
  ∧ (("", "english")
       ∉ requests (Wiki2Anki.get_words_locals hundred_run initial).2).
Proof.
  repeat split; apply (bool_decide_unpack _); vm_compute; exact I.
Qed.

(** C9, amended. An empty token survives deduplication; when it is among the
    first 100 deduplicated tokens and the table does not list the empty
    string, it is one of the words [get_words] resolves, in the order of the
    page: the parser is asked for it in every run in which the words selected
    before it resolve without raising, and so in every run that completes.
    This is always so for a text that starts with whitespace: the empty token
    is then the first token, it takes one of the 100 places, and it is the
    first request of the run. Only [as_string] removes it: no kept card has
    an empty word. *)
Theorem C9_empty_token (self : Wiki2Anki.t) :
  let tokens := Page.get_words (Wiki2Anki.wiki self) (Wiki2Anki.cleaner self) in
  let definer := Wiki2Anki.definer self in
  let lang := WiktionaryDefiner.language definer in
  let table := word_column (Wiki2Anki.common self) in
  ("" ∈ tokens -> "" ∈ drop_duplicates tokens)
  ∧ ("" ∈ head 100 (drop_duplicates tokens) -> "" ∉ table ->
       "" ∈ Wiki2Anki.uncommon_words self
       ∧ (exists before after,
            Wiki2Anki.uncommon_words self = before ++ "" :: after
            ∧ ("" ∉ before)
            ∧ (forallb (resolves definer) before = true ->
               forall st,
                 ("", lang) ∈ requests (Wiki2Anki.get_words_locals self st).2))
       ∧ (forall st ws st',
            Wiki2Anki.get_words_locals self st = (Returned ws, st') ->
            ("", lang) ∈ requests st' ∧ "" ∈ Word.word <$> ws))
  ∧ (forall c, first_char (Page.get_text (Wiki2Anki.wiki self)) = Some c ->
       isspace c = true -> "" ∉ table ->
       exists rest,
         Wiki2Anki.uncommon_words self = "" :: rest
         ∧ length rest <= 99
         ∧ (forall st, exists more,
              requests (Wiki2Anki.get_words_locals self st).2
              = requests st ++ ("", lang) :: more))
  ∧ (forall (deck : list Flashcard.t) card,
       card ∈ Deck.kept deck -> Flashcard.word card ≠ "")
  ∧ (forall (deck : list Flashcard.t) d,
       Deck.as_string (Flashcard.mk "" d :: deck) = Deck.as_string deck).
Proof.
  intros tokens definer lang table.
  split; [apply drop_duplicates_elem|].
  split.
  { intros Hin Htable.
    assert (Hsel : "" ∈ Wiki2Anki.uncommon_words self).
    { rewrite uncommon_words_filter. apply list_elem_of_filter.
      split; [apply empty_unlisted, Htable|exact Hin]. }
    split; [exact Hsel|]. split.
    - destruct (list_elem_of_split_l _ _ Hsel) as (before & after & Hsplit & Hnot).
      exists before, after. split; [exact Hsplit|]. split; [exact Hnot|].
      intros Hall st. unfold Wiki2Anki.get_words_locals.
      rewrite Hsplit, fmap_app, fmap_cons.
      apply (resolve_all_reaches definer (Word.new <$> before) (Word.new "")).
      rewrite forallb_words. exact Hall.
    - intros st ws st' Hrun.
      pose proof (get_words_locals_words _ _ _ _ Hrun) as Hws.
      split; [|rewrite Hws; exact Hsel].
      unfold Wiki2Anki.get_words_locals in Hrun.
      apply resolve_all_returned in Hrun as [_ Hreq].
      apply (Hreq (Word.new "")).
      apply list_elem_of_fmap. exists "". split; [reflexivity|exact Hsel]. }
  split.
  { intros c Hfirst Hc Htable.
    assert (Htok : exists rest, tokens = "" :: rest).
    { unfold tokens, Page.get_words.
      destruct (Page.get_text (Wiki2Anki.wiki self)) as [|c' s]; [discriminate|].
      injection Hfirst as ->. destruct (Wiki2Anki.cleaner self).
      apply clean_leading_space, Hc. }
    destruct Htok as [rest Htok].
    exists (filter (fun w => ¬ listed table w)
              (take 99 (drop_duplicates_from [""] rest))).
    assert (Hsel : Wiki2Anki.uncommon_words self
                   = "" :: filter (fun w => ¬ listed table w)
                             (take 99 (drop_duplicates_from [""] rest))).
    { rewrite uncommon_words_filter. fold tokens. rewrite Htok.
      unfold drop_duplicates. cbn [drop_duplicates_from].
      rewrite bool_decide_false by (intros H; inversion H).
      change (head 100 ("" :: drop_duplicates_from [""] rest))
        with ("" :: take 99 (drop_duplicates_from [""] rest)).
      rewrite filter_cons_True by (apply empty_unlisted, Htable).
      reflexivity. }
    split; [exact Hsel|]. split.
    - etransitivity; [apply length_filter|]. rewrite length_take. lia.
    - intros st. unfold Wiki2Anki.get_words_locals. rewrite Hsel.
      destruct (resolve_all_requests (Wiki2Anki.definer self)
                  (Word.new <$> "" :: filter (fun w => ¬ listed table w)
                                        (take 99 (drop_duplicates_from [""] rest)))
                  st) as (more & Hreq & _ & Hfirstreq).
      destruct (Hfirstreq _ _ eq_refl) as [more' ->].
      exists more'. exact Hreq. }
  split.
  { intros deck card Hin. apply kept_elem in Hin as (_ & _ & Hw). exact Hw. }
  intros deck d. unfold Deck.as_string, Deck.kept. cbn [List.filter].
  case_bool_decide; reflexivity.
Qed.

Lemma C9_empty_token_witness :
  exists rest,
    Wiki2Anki.uncommon_words leading_space_run = "" :: rest
    ∧ length rest <= 99
    ∧ (forall st, exists more,
         requests (Wiki2Anki.get_words_locals leading_space_run st).2
         = requests st ++ ("", "english") :: more).
Proof.
  pose proof (C9_empty_token leading_space_run) as (_ & _ & Hlead & _).
  apply (Hlead (ascii_of_N 10)); [reflexivity|reflexivity|].
  apply (bool_decide_unpack _). vm_compute. exact I.
Defined.
